(** * HealthcareDataAnalysis: the reporting pipeline of [code.py]

    The script is one linear pass over an in-memory table:
    load, merge, forward-fill, derive columns, aggregate, export.
    The table primitives it calls ([merge], [fillna], [cut], [groupby],
    [mean], [count], [value_counts]) are modelled on lists of rows, a row
    being a record of nullable cells ([None] is the missing value NaN/NaT).

    Numbers: integer columns are [Z]; the floating-point columns and the
    means are exact rationals [Q], kept in lowest terms.  Date columns hold
    calendar dates (midnight timestamps), so a time difference in days is
    the difference of the proleptic Gregorian day numbers.  [Pipeline]
    gives each stage as a function on tables; [Script] runs the stages as
    the script does, with the errors of its date arithmetic: a time
    difference is a 64-bit count of nanoseconds (about 292 years at
    most). *)

From Stdlib Require Import ZArith QArith Qreduction List String Ascii Bool Lia.
From Stdlib Require Import Sorted Permutation OrderedTypeEx DecimalString.
Import ListNotations.

Open Scope Z_scope.

(* ================================================================== *)
(** * Calendar dates *)

Module Dates.

(** A parsed date cell: the [year], [month], [day] components of a
    timestamp at midnight. *)
Record Timestamp := mkDate { year : Z; month : Z; day : Z }.

Definition is_leap (y : Z) : bool :=
  ((y mod 4 =? 0) && negb (y mod 100 =? 0)) || (y mod 400 =? 0).

Definition days_in_month (y m : Z) : Z :=
  if m =? 2 then (if is_leap y then 29 else 28)
  else if (m =? 4) || (m =? 6) || (m =? 9) || (m =? 11) then 30
  else 31.

(** Days in the years before year [y]. *)
Definition days_before_year (y : Z) : Z :=
  let p := y - 1 in p * 365 + p / 4 - p / 100 + p / 400.

(** Days in year [y] before the first of month [m]. *)
Definition days_before_month (y m : Z) : Z :=
  nth (Z.to_nat (m - 1))
      [0; 31; 59; 90; 120; 151; 181; 212; 243; 273; 304; 334] 0
  + (if (2 <? m) && is_leap y then 1 else 0).

(** Day number of a date (1 for 0001-01-01). *)
Definition toordinal (d : Timestamp) : Z :=
  days_before_year (year d) + days_before_month (year d) (month d) + day d.

(** [(a - b).days] for two dates, when the difference can be held (see
    [Script.Timedelta_fits]). *)
Definition days_between (a b : Timestamp) : Z := toordinal a - toordinal b.

(** Calendar dates within the years a timestamp column holds in full. *)
Definition Timestamp_ok (d : Timestamp) : bool :=
  (1678 <=? year d) && (year d <=? 2261)
  && (1 <=? month d) && (month d <=? 12)
  && (1 <=? day d) && (day d <=? days_in_month (year d) (month d)).

(** [a < b] on dates: earlier in the calendar. *)
Definition Timestamp_ltb (a b : Timestamp) : bool :=
  (year a <? year b)
  || ((year a =? year b)
      && ((month a <? month b)
          || ((month a =? month b) && (day a <? day b)))).

End Dates.

(* ================================================================== *)
(** * Table primitives *)

Module Frame.

(** Errors the script can die of. *)
Inductive exn := IndexError.

Inductive result (A : Type) :=
| Ok (a : A)
| Raise (e : exn).
Arguments Ok {A} a.
Arguments Raise {A} e.

Definition bind {A B} (m : result A) (k : A -> result B) : result B :=
  match m with
  | Ok a => k a
  | Raise e => Raise e
  end.

Fixpoint mapM {A B} (f : A -> result B) (xs : list A) : result (list B) :=
  match xs with
  | [] => Ok []
  | x :: r => bind (f x) (fun y => bind (mapM f r) (fun ys => Ok (y :: ys)))
  end.

(** The non-missing cells of a column, in row order. *)
Fixpoint dropna {A} (col : list (option A)) : list A :=
  match col with
  | [] => []
  | Some a :: r => a :: dropna r
  | None :: r => dropna r
  end.

(** ** [fillna(method='ffill')] on one column, [prev] being the last
    valid value seen so far. *)
Definition orelse {A} (cur prev : option A) : option A :=
  match cur with
  | Some a => Some a
  | None => prev
  end.

Fixpoint ffill_from {A} (prev : option A) (col : list (option A))
  : list (option A) :=
  match col with
  | [] => []
  | c :: r => let c' := orelse c prev in c' :: ffill_from c' r
  end.

Definition ffill_col {A} (col : list (option A)) : list (option A) :=
  ffill_from None col.

(** The nearest non-missing cell strictly before position [i], looking
    backwards from [i - 1]; [None] when there is none. *)
Fixpoint nearest_before {A} (col : list (option A)) (i : nat) : option A :=
  match i with
  | O => None
  | S j =>
      match nth j col None with
      | Some v => Some v
      | None => nearest_before col j
      end
  end.

(** ** [merge(..., how="left")]: every left row, in order, once per
    matching right row (in right order), or once with no right row. *)
Definition left_join {L R O} (matches : L -> R -> bool)
    (combine : L -> option R -> O) (ls : list L) (rs : list R) : list O :=
  flat_map
    (fun l =>
       match filter (matches l) rs with
       | [] => [combine l None]
       | ms => map (fun r => combine l (Some r)) ms
       end)
    ls.

(** The right rows joined to [l]: its matches, or one missing row. *)
Definition joined {L R} (matches : L -> R -> bool) (l : L) (rs : list R)
  : list (option R) :=
  match filter (matches l) rs with
  | [] => [None]
  | ms => map Some ms
  end.

(** ** [Series.mean()] and [Series.count()], both skipping missing cells;
    the mean of no values is NaN ([None]). *)
Definition Qsum (xs : list Q) : Q := fold_right Qplus 0%Q xs.

Definition NaN : option Q := None.

Definition mean (col : list (option Q)) : option Q :=
  match dropna col with
  | [] => NaN
  | vs => Some (Qred (Qsum vs / inject_Z (Z.of_nat (List.length vs))))
  end.

Definition count {A} (col : list (option A)) : Z :=
  Z.of_nat (List.length (dropna col)).

(** ** [pd.cut(x, bins, labels)] with the default [right=True]:
    [searchsorted(side="left")] over the sorted edges, the first and the
    last position being out of range. *)
Fixpoint searchsorted_left (edges : list Z) (x : Z) : nat :=
  match edges with
  | [] => O
  | b :: r => if b <? x then S (searchsorted_left r x) else O
  end.

Definition cut {A} (bins : list Z) (labels : list A) (x : option Z)
  : option A :=
  match x with
  | None => None
  | Some v =>
      let i := searchsorted_left bins v in
      if (Nat.eqb i 0 || Nat.eqb i (List.length bins))%bool then None
      else nth_error labels (i - 1)
  end.

(** ** Group keys and their order *)
Class Ord (K : Type) := { cmp : K -> K -> comparison }.

#[global] Instance Ord_Z : Ord Z := {| cmp := Z.compare |}.
#[global] Instance Ord_string : Ord string := {| cmp := String.compare |}.

Section GroupBy.
Context {K : Type} `{Ord K} {R : Type}.

Fixpoint insert_key (k : K) (ks : list K) : list K :=
  match ks with
  | [] => [k]
  | k' :: r =>
      match cmp k k' with
      | Lt => k :: ks
      | Eq => ks
      | Gt => k' :: insert_key k r
      end
  end.

(** The distinct non-missing keys of a column, ascending
    ([groupby] has [sort=True] and [dropna=True]). *)
Definition group_keys (col : list (option K)) : list K :=
  fold_right insert_key [] (dropna col).

Definition key_is (k : K) (o : option K) : bool :=
  match o with
  | Some k' => match cmp k k' with Eq => true | _ => false end
  | None => false
  end.

(** [df.groupby(key)]: each key with its rows, in table order. *)
Definition groupby (key : R -> option K) (rows : list R)
  : list (K * list R) :=
  map (fun k => (k, filter (fun r => key_is k (key r)) rows))
      (group_keys (map key rows)).

(** [df.groupby(key)[val].agg(f)] for a total [f]. *)
Definition groupby_agg {A V} (key : R -> option K) (val : R -> option A)
    (f : list (option A) -> V) (rows : list R) : list (K * V) :=
  map (fun g => (fst g, f (map val (snd g)))) (groupby key rows).

(** The same for an [f] that can raise: the first error aborts. *)
Definition groupby_agg_raising {A V} (key : R -> option K)
    (val : R -> option A) (f : list (option A) -> result V)
    (rows : list R) : result (list (K * V)) :=
  mapM (fun g => bind (f (map val (snd g))) (fun v => Ok (fst g, v)))
       (groupby key rows).
End GroupBy.

(** The index (the labels, in order) of a result series. *)
Definition index {K V} (s : list (K * V)) : list K := map fst s.

Definition key_lt {K} `{Ord K} (a b : K) : Prop := cmp a b = Lt.

(** What the group keys need of their order: [cmp] decides equality and
    its [Lt] is a strict order. *)
Class OrdLaws (K : Type) `{Ord K} : Prop := {
  cmp_eq : forall a b : K, cmp a b = Eq <-> a = b;
  cmp_antisym : forall a b : K, cmp a b = CompOpp (cmp b a);
  cmp_lt_trans :
    forall a b c : K, cmp a b = Lt -> cmp b c = Lt -> cmp a c = Lt
}.

(** A list of keys in strictly ascending order. *)
Definition ascending {K} `{Ord K} (ks : list K) : Prop :=
  StronglySorted key_lt ks.

(** Label lookup in a result series. *)
Fixpoint loc {K V} `{Ord K} (k : K) (s : list (K * V)) : option V :=
  match s with
  | [] => None
  | (k', v) :: r =>
      match cmp k k' with Eq => Some v | _ => loc k r end
  end.

(** ** [Series.value_counts()]: missing cells dropped, one entry per
    distinct value, ordered by count, largest first.  The library does
    not fix the order of entries of equal count; [sort_desc] keeps them in
    order of first appearance, [Ties] takes any order. *)
Fixpoint unique (xs : list string) : list string :=
  match xs with
  | [] => []
  | x :: r => x :: filter (fun y => negb (String.eqb y x)) (unique r)
  end.

Definition occurrences (v : string) (xs : list string) : nat :=
  List.length (filter (String.eqb v) xs).

Fixpoint insert_desc (e : string * nat) (l : list (string * nat))
  : list (string * nat) :=
  match l with
  | [] => [e]
  | e' :: r =>
      if Nat.ltb (snd e) (snd e') then e' :: insert_desc e r else e :: l
  end.

Definition sort_desc (l : list (string * nat)) : list (string * nat) :=
  fold_right insert_desc [] l.

Definition value_counts (col : list (option string))
  : list (string * nat) :=
  let xs := dropna col in
  sort_desc (map (fun v => (v, occurrences v xs)) (unique xs)).

(** [s.index[0]]. *)
Definition index0 {V} (s : list (string * V)) : result string :=
  match s with
  | [] => Raise IndexError
  | (v, _) :: _ => Ok v
  end.

End Frame.

(* ================================================================== *)
(** * The script *)

Module Pipeline.
Import Dates Frame.

(** ** The three input tables (lines 9-11), with the columns the script
    names *)
Record Patient := mkPatient {
  pat_Patient_ID : option string;
  pat_DOB : option Timestamp;
  pat_Admission_Date : option Timestamp;
  pat_Discharge_Date : option Timestamp;
  pat_Gender : option string;
  pat_Condition : option string;
  pat_Hospital_ID : option string;
  pat_Readmitted : option Z;
  pat_Outcome : option string
}.

Record Hospital := mkHospital {
  hosp_Hospital_ID : option string;
  hosp_Department : option string
}.

Record Treatment := mkTreatment {
  trt_Condition : option string;
  trt_Treatment_Type : option string;
  trt_Effectiveness_Rate : option Q
}.

(** Patients joined to hospitals. *)
Record PatientHospital := mkPatientHospital {
  ph_patient : Patient;
  ph_Department : option string
}.

(** A row of [df] after the merge. *)
Record Row := mkRow {
  Patient_ID : option string;
  DOB : option Timestamp;
  Admission_Date : option Timestamp;
  Discharge_Date : option Timestamp;
  Gender : option string;
  Condition : option string;
  Hospital_ID : option string;
  Readmitted : option Z;
  Outcome : option string;
  Department : option string;
  Treatment_Type : option string;
  Effectiveness_Rate : option Q
}.

(** ** 1. Merge (line 14) *)

(** Join keys are compared for equality; a missing key matches a
    missing key. *)
Definition key_eqb (a b : option string) : bool :=
  match a, b with
  | Some x, Some y => String.eqb x y
  | None, None => true
  | _, _ => false
  end.

Definition on_Hospital_ID (p : Patient) (h : Hospital) : bool :=
  key_eqb (pat_Hospital_ID p) (hosp_Hospital_ID h).

Definition on_Condition (ph : PatientHospital) (t : Treatment) : bool :=
  key_eqb (pat_Condition (ph_patient ph)) (trt_Condition t).

Definition with_hospital (p : Patient) (h : option Hospital)
  : PatientHospital :=
  {| ph_patient := p;
     ph_Department := match h with
                      | Some h => hosp_Department h
                      | None => None
                      end |}.

Definition with_treatment (ph : PatientHospital) (t : option Treatment)
  : Row :=
  let p := ph_patient ph in
  {| Patient_ID := pat_Patient_ID p;
     DOB := pat_DOB p;
     Admission_Date := pat_Admission_Date p;
     Discharge_Date := pat_Discharge_Date p;
     Gender := pat_Gender p;
     Condition := pat_Condition p;
     Hospital_ID := pat_Hospital_ID p;
     Readmitted := pat_Readmitted p;
     Outcome := pat_Outcome p;
     Department := ph_Department ph;
     Treatment_Type := match t with
                       | Some t => trt_Treatment_Type t
                       | None => None
                       end;
     Effectiveness_Rate := match t with
                           | Some t => trt_Effectiveness_Rate t
                           | None => None
                           end |}.

Definition merge (patients : list Patient) (hospitals : list Hospital)
    (treatments : list Treatment) : list Row :=
  left_join on_Condition with_treatment
    (left_join on_Hospital_ID with_hospital patients hospitals)
    treatments.

(** How many hospital rows, and how many treatment rows, a patient row
    matches. *)
Definition hospital_matches (p : Patient) (hospitals : list Hospital)
  : nat :=
  List.length (filter (on_Hospital_ID p) hospitals).

Definition treatment_matches (p : Patient) (treatments : list Treatment)
  : nat :=
  List.length
    (filter (fun t => key_eqb (pat_Condition p) (trt_Condition t))
            treatments).

(** The patient columns of a merged row. *)
Definition patient_of (r : Row) : Patient :=
  {| pat_Patient_ID := Patient_ID r;
     pat_DOB := DOB r;
     pat_Admission_Date := Admission_Date r;
     pat_Discharge_Date := Discharge_Date r;
     pat_Gender := Gender r;
     pat_Condition := Condition r;
     pat_Hospital_ID := Hospital_ID r;
     pat_Readmitted := Readmitted r;
     pat_Outcome := Outcome r |}.

(** The patient and hospital columns of a merged row. *)
Definition patient_hospital_of (r : Row) : PatientHospital :=
  {| ph_patient := patient_of r; ph_Department := Department r |}.

(** ** 2. Forward fill (line 17): every column at once, [prev] holding
    the last valid value of each column. *)
Definition fill (prev cur : Row) : Row :=
  {| Patient_ID := orelse (Patient_ID cur) (Patient_ID prev);
     DOB := orelse (DOB cur) (DOB prev);
     Admission_Date := orelse (Admission_Date cur) (Admission_Date prev);
     Discharge_Date := orelse (Discharge_Date cur) (Discharge_Date prev);
     Gender := orelse (Gender cur) (Gender prev);
     Condition := orelse (Condition cur) (Condition prev);
     Hospital_ID := orelse (Hospital_ID cur) (Hospital_ID prev);
     Readmitted := orelse (Readmitted cur) (Readmitted prev);
     Outcome := orelse (Outcome cur) (Outcome prev);
     Department := orelse (Department cur) (Department prev);
     Treatment_Type := orelse (Treatment_Type cur) (Treatment_Type prev);
     Effectiveness_Rate :=
       orelse (Effectiveness_Rate cur) (Effectiveness_Rate prev) |}.

Fixpoint ffill_rows (prev : Row) (rows : list Row) : list Row :=
  match rows with
  | [] => []
  | r :: rs => let r' := fill prev r in r' :: ffill_rows r' rs
  end.

Definition null_row : Row :=
  mkRow None None None None None None None None None None None None.

Definition fillna_ffill (df : list Row) : list Row := ffill_rows null_row df.

(** Columns by name, and their cells as values of one type. *)
Inductive column :=
| cPatient_ID | cDOB | cAdmission_Date | cDischarge_Date | cGender
| cCondition | cHospital_ID | cReadmitted | cOutcome | cDepartment
| cTreatment_Type | cEffectiveness_Rate.

Inductive cell :=
| Str (s : string)
| Int (z : Z)
| Num (q : Q)
| Date (d : Timestamp).

Definition get (c : column) (r : Row) : option cell :=
  match c with
  | cPatient_ID => option_map Str (Patient_ID r)
  | cDOB => option_map Date (DOB r)
  | cAdmission_Date => option_map Date (Admission_Date r)
  | cDischarge_Date => option_map Date (Discharge_Date r)
  | cGender => option_map Str (Gender r)
  | cCondition => option_map Str (Condition r)
  | cHospital_ID => option_map Str (Hospital_ID r)
  | cReadmitted => option_map Int (Readmitted r)
  | cOutcome => option_map Str (Outcome r)
  | cDepartment => option_map Str (Department r)
  | cTreatment_Type => option_map Str (Treatment_Type r)
  | cEffectiveness_Rate => option_map Num (Effectiveness_Rate r)
  end.

(** ** 3-7. Derived columns (lines 21-39) *)
Record Enriched := mkEnriched {
  row : Row;
  Age : option Z;
  Age_Group : option string;
  Admission_Month : option Z;
  Discharge_Month : option Z;
  Length_of_Stay : option Z
}.

Definition today : Timestamp := mkDate 2024 1 1.

Definition bins : list Z := [0; 18; 35; 50; 65; 100].
Definition labels : list string :=
  ["Child"; "Young Adult"; "Adult"; "Middle Aged"; "Senior"]%string.

(** [(today - DOB).dt.days // 365] *)
Definition age_of (dob : option Timestamp) : option Z :=
  option_map (fun d => days_between today d / 365) dob.

(** [(Discharge_Date - Admission_Date).dt.days] *)
Definition stay_of (discharge admission : option Timestamp) : option Z :=
  match discharge, admission with
  | Some d, Some a => Some (days_between d a)
  | _, _ => None
  end.

Definition enrich (r : Row) : Enriched :=
  {| row := r;
     Age := age_of (DOB r);
     Age_Group := cut bins labels (age_of (DOB r));
     Admission_Month := option_map month (Admission_Date r);
     Discharge_Month := option_map month (Discharge_Date r);
     Length_of_Stay := stay_of (Discharge_Date r) (Admission_Date r) |}.

(** [df] as the aggregates see it, when the script gets that far (see
    [Script.run]). *)
Definition analysis_table (patients : list Patient)
    (hospitals : list Hospital) (treatments : list Treatment)
  : list Enriched :=
  map enrich (fillna_ffill (merge patients hospitals treatments)).

(** ** Aggregates (lines 35-52, 96, 99) *)
Definition e_Patient_ID (e : Enriched) := Patient_ID (row e).
Definition e_Condition (e : Enriched) := Condition (row e).
Definition e_Department (e : Enriched) := Department (row e).
Definition e_Outcome (e : Enriched) := Outcome (row e).
Definition e_Treatment_Type (e : Enriched) := Treatment_Type (row e).
Definition e_Effectiveness_Rate (e : Enriched) := Effectiveness_Rate (row e).
Definition e_Readmitted (e : Enriched) : option Q :=
  option_map inject_Z (Readmitted (row e)).
Definition e_Length_of_Stay (e : Enriched) : option Q :=
  option_map inject_Z (Length_of_Stay e).

Definition admission_trend (df : list Enriched) : list (Z * Z) :=
  groupby_agg Admission_Month e_Patient_ID count df.

Definition discharge_trend (df : list Enriched) : list (Z * Z) :=
  groupby_agg Discharge_Month e_Patient_ID count df.

Definition avg_stay_condition (df : list Enriched)
  : list (string * option Q) :=
  groupby_agg e_Condition e_Length_of_Stay mean df.

Definition avg_stay_department (df : list Enriched)
  : list (string * option Q) :=
  groupby_agg e_Department e_Length_of_Stay mean df.

Definition readmission_rate (df : list Enriched) : option Q :=
  mean (map e_Readmitted df).

Definition readmission_by_condition (df : list Enriched)
  : list (string * option Q) :=
  groupby_agg e_Condition e_Readmitted mean df.

Definition outcome_segment (df : list Enriched) : list (string * Z) :=
  groupby_agg e_Outcome e_Patient_ID count df.

Definition effectiveness_summary (df : list Enriched)
  : list (string * option Q) :=
  groupby_agg e_Treatment_Type e_Effectiveness_Rate mean df.

Definition high_risk_patients (df : list Enriched) : list Enriched :=
  filter (fun e => key_eqb (e_Outcome e) (Some "Deteriorated"%string)) df.

(** [df["Readmitted"] == 1] *)
Definition is_readmitted (e : Enriched) : bool :=
  match Readmitted (row e) with
  | Some z => z =? 1
  | None => false
  end.

Definition most_frequent (x : list (option string)) : result string :=
  index0 (value_counts x).

Definition interventions (df : list Enriched)
  : result (list (string * string)) :=
  groupby_agg_raising e_Condition e_Treatment_Type most_frequent
    (filter is_readmitted df).

(** The treatment types, in table order, of the readmitted rows with
    condition [c]: what [most_frequent] is applied to for [c]. *)
Definition readmitted_treatments (c : string) (df : list Enriched)
  : list string :=
  dropna
    (map e_Treatment_Type
         (filter (fun e => key_is c (e_Condition e))
                 (filter is_readmitted df))).

(** ** What the grouped results are checked against *)

(** The labels of [series] are the keys carried by some row of [df]. *)
Definition keys_of_present_rows {K V} (key : Enriched -> option K)
    (series : list (K * V)) (df : list Enriched) : Prop :=
  forall k : K,
    In k (index series) <-> exists e, In e df /\ key e = Some k.

(** No group handed to an aggregation is empty. *)
Definition no_empty_group {K} `{Ord K} (key : Enriched -> option K)
    (df : list Enriched) : Prop :=
  forall (k : K) (g : list Enriched), In (k, g) (groupby key df) -> g <> [].

(** The labels of [series] ascend and are those of [series'] too. *)
Definition sorted_same_index {K V} `{Ord K}
    (series series' : list (K * V)) : Prop :=
  ascending (index series) /\ index series' = index series.

End Pipeline.

(* ================================================================== *)
(** * Export and reload (lines 102 and 9) *)

Module Csv.
Import Dates Frame Pipeline.

Inductive parse_error := ParserError.

(** ** Date cells: ISO text [YYYY-MM-DD], the empty field for NaT *)
Definition digit (n : Z) : ascii := ascii_of_N (48 + Z.to_N n).

Definition pad2 (n : Z) (rest : string) : string :=
  String (digit (n / 10)) (String (digit (n mod 10)) rest).

Definition pad4 (n : Z) (rest : string) : string :=
  String (digit (n / 1000))
    (String (digit (n / 100 mod 10)) (pad2 (n mod 100) rest)).

Definition dash : ascii := "-"%char.

Definition format_date (d : Timestamp) : string :=
  pad4 (year d)
    (String dash (pad2 (month d) (String dash (pad2 (day d) EmptyString)))).

Definition date_cell (c : option Timestamp) : string :=
  match c with
  | Some d => format_date d
  | None => EmptyString
  end.

Definition digit_val (c : ascii) : option Z :=
  let n := Z.of_N (N_of_ascii c) - 48 in
  if (0 <=? n) && (n <=? 9) then Some n else None.

Definition number (ds : list ascii) : option Z :=
  fold_left
    (fun acc c =>
       match acc, digit_val c with
       | Some a, Some v => Some (10 * a + v)
       | _, _ => None
       end)
    ds (Some 0).

Definition parse_date (s : string) : option Timestamp :=
  match list_ascii_of_string s with
  | [y1; y2; y3; y4; s1; m1; m2; s2; d1; d2] =>
      if Ascii.eqb s1 dash && Ascii.eqb s2 dash then
        match number [y1; y2; y3; y4], number [m1; m2], number [d1; d2] with
        | Some y, Some m, Some d =>
            let t := mkDate y m d in
            if Timestamp_ok t then Some t else None
        | _, _, _ => None
        end
      else None
  | _ => None
  end.

(** A field that is empty or not a date yields no timestamp. *)
Definition read_date_cell (s : string) : option Timestamp :=
  if String.eqb s EmptyString then None else parse_date s.

(** ** Whole rows, the text of the other cells being whatever the
    writer and the reader make of them *)
Section Rows.
Variable str_cell : option string -> string.
Variable read_str : string -> option string.
Variable int_cell : option Z -> string.
Variable read_int : string -> option Z.
Variable num_cell : option Q -> string.
Variable read_num : string -> option Q.

Definition to_csv_row (e : Enriched) : list string :=
  let r := row e in
  [ str_cell (Patient_ID r); date_cell (DOB r);
    date_cell (Admission_Date r); date_cell (Discharge_Date r);
    str_cell (Gender r); str_cell (Condition r);
    str_cell (Hospital_ID r); int_cell (Readmitted r);
    str_cell (Outcome r); str_cell (Department r);
    str_cell (Treatment_Type r); num_cell (Effectiveness_Rate r);
    int_cell (Age e); str_cell (Age_Group e);
    int_cell (Admission_Month e); int_cell (Discharge_Month e);
    int_cell (Length_of_Stay e) ].

Definition to_csv (df : list Enriched) : list (list string) :=
  map to_csv_row df.

(** Reading a line back gives the twelve base columns (the five
    derived ones are recomputed, overwriting what was read). *)
Definition read_csv_row (fields : list string)
  : parse_error + Row :=
  match fields with
  | [pid; dob; adm; dis; gen; cond; hid; readm; outc; dept; ttype; eff;
     _; _; _; _; _] =>
      inr {| Patient_ID := read_str pid;
             DOB := read_date_cell dob;
             Admission_Date := read_date_cell adm;
             Discharge_Date := read_date_cell dis;
             Gender := read_str gen;
             Condition := read_str cond;
             Hospital_ID := read_str hid;
             Readmitted := read_int readm;
             Outcome := read_str outc;
             Department := read_str dept;
             Treatment_Type := read_str ttype;
             Effectiveness_Rate := read_num eff |}
  | _ => inl ParserError
  end.

Fixpoint read_csv (lines : list (list string))
  : parse_error + list Row :=
  match lines with
  | [] => inr []
  | l :: rest =>
      match read_csv_row l, read_csv rest with
      | inr r, inr rs => inr (r :: rs)
      | inl e, _ => inl e
      | _, inl e => inl e
      end
  end.

(** Export, reload, and run lines 21-39 again. *)
Definition reload_and_enrich (df : list Enriched)
  : parse_error + list Enriched :=
  match read_csv (to_csv df) with
  | inr rows => inr (map enrich rows)
  | inl e => inl e
  end.
End Rows.

(** The derived columns the round trip compares. *)
Definition derived (e : Enriched) : option Z * option string * option Z :=
  (Age e, Age_Group e, Length_of_Stay e).

Definition date_cell_ok (c : option Timestamp) : bool :=
  match c with
  | Some d => Timestamp_ok d
  | None => true
  end.

Definition dates_ok (r : Row) : bool :=
  date_cell_ok (DOB r) && date_cell_ok (Admission_Date r)
  && date_cell_ok (Discharge_Date r).

End Csv.

(* ================================================================== *)
(** * The end-to-end example: one patient, one hospital, one treatment *)

Module Example.
Import Dates Frame Pipeline.
Open Scope string_scope.

Definition P1 : Patient :=
  {| pat_Patient_ID := Some "P1";
     pat_DOB := Some (mkDate 2000 1 1);
     pat_Admission_Date := Some (mkDate 2024 1 5);
     pat_Discharge_Date := Some (mkDate 2024 1 10);
     pat_Gender := None;
     pat_Condition := Some "Flu";
     pat_Hospital_ID := Some "H1";
     pat_Readmitted := Some 1%Z;
     pat_Outcome := Some "Improved" |}.

Definition H1 : Hospital :=
  {| hosp_Hospital_ID := Some "H1"; hosp_Department := Some "General" |}.

Definition Flu_Antiviral : Treatment :=
  {| trt_Condition := Some "Flu";
     trt_Treatment_Type := Some "Antiviral";
     trt_Effectiveness_Rate := Some (8 # 10)%Q |}.

Definition df : list Enriched := analysis_table [P1] [H1] [Flu_Antiviral].

(** A second row of the hospital table for the same hospital. *)
Definition H1_ICU : Hospital :=
  {| hosp_Hospital_ID := Some "H1"; hosp_Department := Some "ICU" |}.

(** A merged row holding nothing but a condition, a readmitted flag and
    a treatment type. *)
Definition flagged_row (cond : string) (readm : Z) (ttype : option string)
  : Row :=
  mkRow None None None None None (Some cond) None (Some readm) None None
        ttype None.

(** Four readmitted "Flu" rows, two treatment types tied at two rows
    each, [first] being the type of the first row. *)
Definition tied (first second : string) : list Enriched :=
  map enrich
      [ flagged_row "Flu" 1 (Some first);
        flagged_row "Flu" 1 (Some second);
        flagged_row "Flu" 1 (Some second);
        flagged_row "Flu" 1 (Some first) ].

(** Cell writers and readers to run the export on: text as it is,
    integers in decimal, rates as a quotient of two integers, a missing
    cell as the empty field. *)
Definition text_cell (c : option string) : string :=
  match c with
  | Some s => s
  | None => EmptyString
  end.

Definition read_text (s : string) : option string :=
  if String.eqb s EmptyString then None else Some s.

Definition integer_cell (c : option Z) : string :=
  match c with
  | Some z => NilZero.string_of_int (Z.to_int z)
  | None => EmptyString
  end.

Definition read_integer (s : string) : option Z :=
  if String.eqb s EmptyString then None
  else option_map Z.of_int (NilZero.int_of_string s).

Definition rate_cell (c : option Q) : string :=
  match c with
  | Some q =>
      integer_cell (Some (Qnum q)) ++ "/"
      ++ integer_cell (Some (Z.pos (Qden q)))
  | None => EmptyString
  end.

Definition read_rate (s : string) : option Q :=
  match String.index 0%nat "/" s with
  | Some i =>
      match read_integer (String.substring 0%nat i s),
            read_integer
              (String.substring (S i) (String.length s - S i)%nat s) with
      | Some n, Some (Z.pos d) => Some (n # d)%Q
      | _, _ => None
      end
  | None => None
  end.

(** A merged row holding nothing but its three dates. *)
Definition dated_row (dob adm dis : option Timestamp) : Row :=
  mkRow None dob adm dis None None None None None None None None.


End Example.

(* ================================================================== *)
(** * Charts and printed tables (lines 55, 62, 111) *)

Module Reports.
Import Dates Frame Pipeline.

Definition e_Gender (e : Enriched) := Gender (row e).

(** [df["Gender"].value_counts()], the data of the gender pie. *)
Definition gender_distribution (df : list Enriched) : list (string * nat) :=
  value_counts (map e_Gender df).



(** [a] stands strictly before [b] in descending order, NaN last. *)
Definition rate_gtb (a b : option Q) : bool :=
  match a, b with
  | Some x, Some y => negb (Qle_bool x y)
  | Some _, None => true
  | None, _ => false
  end.

Fixpoint insert_rate {K} (e : K * option Q) (l : list (K * option Q))
  : list (K * option Q) :=
  match l with
  | [] => [e]
  | e' :: r =>
      if rate_gtb (snd e') (snd e) then e' :: insert_rate e r else e :: l
  end.

(** [s.sort_values(ascending=False)] *)
Definition sort_values_desc {K} (s : list (K * option Q))
  : list (K * option Q) :=
  fold_right insert_rate [] s.

(** [s.head(n)] *)
Definition head {A} (n : nat) (s : list A) : list A := firstn n s.

(** [readmission_by_condition.sort_values(ascending=False).head()] *)
Definition top_conditions (df : list Enriched) : list (string * option Q) :=
  head 5 (sort_values_desc (readmission_by_condition df)).

(** ** What the tables are checked against *)

(** The sum of the values of a series of counts. *)
Definition total {K} (s : list (K * Z)) : Z :=
  fold_right Z.add 0 (map snd s).

Definition total_nat {K} (s : list (K * nat)) : nat :=
  fold_right Nat.add 0%nat (map snd s).

(** [a] is at least [b], a number being above NaN. *)
Definition rate_ge (a b : option Q) : Prop :=
  match a, b with
  | Some x, Some y => (y <= x)%Q
  | _, None => True
  | None, Some _ => False
  end.

(** The rows of [df] that carry both a group key and a patient
    identifier. *)
Definition counted_rows {K} (key : Enriched -> option K)
    (df : list Enriched) : list Enriched :=
  filter (fun e => match key e, e_Patient_ID e with
                   | Some _, Some _ => true
                   | _, _ => false
                   end) df.

(** The rows of [df] with key [k]. *)
Definition rows_with {K} `{Ord K} (key : Enriched -> option K) (k : K)
    (df : list Enriched) : list Enriched :=
  filter (fun e => key_is k (key e)) df.

End Reports.

(* ================================================================== *)
(** * A run of the script up to the aggregates (lines 9-39), with the
    errors of its date arithmetic *)

Module Script.
Import Dates Frame Pipeline.

(** What lines 22 and 39 can raise. *)
Inductive error := AttributeError | OverflowError.

(** A time difference is a signed 64-bit count of nanoseconds. *)
Definition ns_per_day : Z := 86400 * 1000000000.
Definition Timedelta_max : Z := 2 ^ 63 - 1.

(** A difference of [days] whole days can be held. *)
Definition Timedelta_fits (days : Z) : bool :=
  Z.abs days * ns_per_day <=? Timedelta_max.

(** [today - DOB] of a row can be held. *)
Definition age_fits (r : Row) : bool :=
  match DOB r with
  | Some d => Timedelta_fits (days_between today d)
  | None => true
  end.

(** [Discharge_Date - Admission_Date] of a row can be held. *)
Definition stay_fits (r : Row) : bool :=
  match Discharge_Date r, Admission_Date r with
  | Some d, Some a => Timedelta_fits (days_between d a)
  | _, _ => true
  end.

(** Line 22 on the whole column: one difference that cannot be held
    raises OverflowError for the column. *)
Definition Age_column (df : list Row) : error + list (option Z) :=
  if forallb age_fits df
  then inr (map (fun r => age_of (DOB r)) df)
  else inl OverflowError.

(** Line 39 on the whole column, likewise. *)
Definition Length_of_Stay_column (df : list Row)
  : error + list (option Z) :=
  if forallb stay_fits df
  then inr (map (fun r => stay_of (Discharge_Date r) (Admission_Date r)) df)
  else inl OverflowError.

(** Lines 9 to 39.  A patient file without rows is read with date columns
    that have no date type, and the [.dt] of line 22 raises AttributeError;
    otherwise the table is merged, filled and given its derived columns,
    unless a date difference raises. *)
Definition run (patients : list Patient) (hospitals : list Hospital)
    (treatments : list Treatment) : error + list Enriched :=
  match patients with
  | [] => inl AttributeError
  | _ :: _ =>
      let df := fillna_ffill (merge patients hospitals treatments) in
      match Age_column df with
      | inl e => inl e
      | inr _ =>
          match Length_of_Stay_column df with
          | inl e => inl e
          | inr _ => inr (map enrich df)
          end
      end
  end.

(** ** Inputs to run the script on *)

(** A patient of hospital H1 with "Flu", outcome "Improved". *)
Definition patient (id : string) (dob adm dis : option Timestamp)
    (flag : option Z) : Patient :=
  {| pat_Patient_ID := Some id;
     pat_DOB := dob;
     pat_Admission_Date := adm;
     pat_Discharge_Date := dis;
     pat_Gender := None;
     pat_Condition := Some "Flu"%string;
     pat_Hospital_ID := Some "H1"%string;
     pat_Readmitted := flag;
     pat_Outcome := Some "Improved"%string |}.


(** Admitted [adm], discharged [dis], born 2000-01-01. *)
Definition stay (adm dis : Timestamp) : Patient :=
  patient "P3" (Some (mkDate 2000 1 1)) (Some adm) (Some dis) (Some 0).

(** Born [dob], admitted 2024-01-05, discharged 2024-01-10. *)
Definition born (dob : Timestamp) : Patient :=
  patient "P4" (Some dob) (Some (mkDate 2024 1 5)) (Some (mkDate 2024 1 10))
          (Some 0).

(** Born 2000-01-01, admitted 2024-01-05, discharged 2024-01-10, with the
    readmitted flag [flag]. *)
Definition flagged (flag : option Z) : Patient :=
  patient "P5" (Some (mkDate 2000 1 1)) (Some (mkDate 2024 1 5))
          (Some (mkDate 2024 1 10)) flag.

End Script.

(* ================================================================== *)
(** * The most frequent treatment type, whatever the order of equal
    counts (line 99) *)

Module Ties.
Import Dates Frame Pipeline.

(** [value_counts] orders its entries by count, largest first; the order
    it leaves entries of equal count in is the library's sort's and is not
    fixed here: [sort] stands for that sort. *)
Section BySort.
Variable sort : list (string * nat) -> list (string * nat).

Definition value_counts_by (col : list (option string))
  : list (string * nat) :=
  let xs := dropna col in
  sort (map (fun v => (v, occurrences v xs)) (unique xs)).

Definition most_frequent_by (x : list (option string)) : result string :=
  index0 (value_counts_by x).

Definition interventions_by (df : list Enriched)
  : result (list (string * string)) :=
  groupby_agg_raising e_Condition e_Treatment_Type most_frequent_by
    (filter is_readmitted df).
End BySort.

(** All that is known of the sort: it loses no entry and puts no smaller
    count before a larger one. *)
Definition orders_by_count
    (sort : list (string * nat) -> list (string * nat)) : Prop :=
  forall l, Permutation (sort l) l
            /\ StronglySorted (fun a b => (snd b <= snd a)%nat) (sort l).

(** A sort by count that leaves entries of equal count in reverse
    order. *)
Fixpoint insert_desc_last (e : string * nat) (l : list (string * nat))
  : list (string * nat) :=
  match l with
  | [] => [e]
  | e' :: r =>
      if Nat.leb (snd e) (snd e') then e' :: insert_desc_last e r
      else e :: l
  end.

Definition sort_desc_last (l : list (string * nat)) : list (string * nat) :=
  fold_right insert_desc_last [] l.

(** Readmitted "Flu" rows with the treatment types given, in order. *)
Definition treated (types : list string) : list Enriched :=
  map (fun t => enrich (Example.flagged_row "Flu" 1 (Some t))) types.

End Ties.

(* ================================================================== *)
(** * Properties *)

Import Dates Frame Pipeline.

(** ** Age groups *)

Lemma searchsorted_bins (age : Z) :
  searchsorted_left bins age =
    if age <=? 0 then 0%nat
    else if age <=? 18 then 1%nat
    else if age <=? 35 then 2%nat
    else if age <=? 50 then 3%nat
    else if age <=? 65 then 4%nat
    else if age <=? 100 then 5%nat
    else 6%nat.
Proof.
  unfold bins; cbn [searchsorted_left].
  repeat match goal with
         | |- context [?a <? ?b] => destruct (Z.ltb_spec a b)
         | |- context [?a <=? ?b] => destruct (Z.leb_spec a b)
         end; try reflexivity; lia.
Qed.

Lemma cut_bins (age : Z) :
  cut bins labels (Some age) =
    if age <=? 0 then None
    else if age <=? 18 then Some "Child"%string
    else if age <=? 35 then Some "Young Adult"%string
    else if age <=? 50 then Some "Adult"%string
    else if age <=? 65 then Some "Middle Aged"%string
    else if age <=? 100 then Some "Senior"%string
    else None.
Proof.
  unfold cut. rewrite searchsorted_bins.
  repeat match goal with
         | |- context [?a <=? ?b] => destruct (Z.leb_spec a b)
         end; reflexivity.
Qed.

(** C2. The age group of every row is the label of the one interval among
    (0,18], (18,35], (35,50], (50,65], (65,100] that holds the row's age,
    upper bounds included (18 is a Child, 19 a Young Adult); an age outside
    (0,100], or a missing one, has no group, and nothing is raised. *)
Theorem age_group_intervals (r : Row) (age : Z) :
  Age_Group (enrich r) = cut bins labels (Age (enrich r))
  /\ (cut bins labels (Some age) = Some "Child"%string <-> 0 < age <= 18)
  /\ (cut bins labels (Some age) = Some "Young Adult"%string <-> 18 < age <= 35)
  /\ (cut bins labels (Some age) = Some "Adult"%string <-> 35 < age <= 50)
  /\ (cut bins labels (Some age) = Some "Middle Aged"%string <-> 50 < age <= 65)
  /\ (cut bins labels (Some age) = Some "Senior"%string <-> 65 < age <= 100)
  /\ (cut bins labels (Some age) = None <-> age <= 0 \/ 100 < age)
  /\ cut bins labels (Some 18) = Some "Child"%string
  /\ cut bins labels (Some 19) = Some "Young Adult"%string
  /\ cut bins labels None = @None string.
Proof.
  split; [reflexivity |].
  rewrite cut_bins.
  repeat match goal with
         | |- context [?a <=? ?b] => destruct (Z.leb_spec a b)
         end;
    repeat split; intros; try discriminate; try reflexivity; try lia.
Qed.

(** The bucket order follows the age: a larger age never falls in an
    earlier interval. *)
Lemma searchsorted_bins_monotone (a b : Z) :
  a <= b -> (searchsorted_left bins a <= searchsorted_left bins b)%nat.
Proof.
  intros Hab. rewrite !searchsorted_bins.
  repeat match goal with
         | |- context [?a <=? ?b] => destruct (Z.leb_spec a b)
         end; lia.
Qed.

(** ** The end-to-end example *)

(** C1, as stated, fails: the example patient is 24 on the reference date,
    and 24 lies in (18,35], so the group computed is not "Adult". *)
Lemma example_age_group_is_not_Adult :
  map Age Example.df = [Some 24]
  /\ map Age_Group Example.df <> [Some "Adult"%string].
Proof. split; [reflexivity | discriminate]. Qed.

(** C1, amended. The example input (patient P1 born 2000-01-01, admitted
    2024-01-05, discharged 2024-01-10, readmitted, with "Flu", outcome
    "Improved", hospital H1 "General", treatment "Antiviral" 0.8 for "Flu")
    gives one row with age 24, age group "Young Adult", length of stay 5,
    and readmission rate 1, average stay 5 for "Flu", effectiveness 0.8 for
    "Antiviral". *)
Theorem example_end_to_end :
  List.length Example.df = 1%nat
  /\ map Age Example.df = [Some 24]
  /\ map Age_Group Example.df = [Some "Young Adult"%string]
  /\ map Length_of_Stay Example.df = [Some 5]
  /\ map e_Department Example.df = [Some "General"%string]
  /\ readmission_rate Example.df = Some 1%Q
  /\ loc "Flu"%string (avg_stay_condition Example.df) = Some (Some 5%Q)
  /\ exists q, loc "Antiviral"%string (effectiveness_summary Example.df)
               = Some (Some q)
               /\ (q == 8 # 10)%Q.
Proof.
  repeat (split; [reflexivity |]).
  exists (4 # 5)%Q. split; reflexivity.
Qed.

(** ** Day numbers *)

Lemma div_step (y k : Z) :
  0 < k -> y / k = (y - 1) / k + (if y mod k =? 0 then 1 else 0).
Proof.
  intros Hk. destruct (Z.eqb_spec (y mod k) 0);
    Z.div_mod_to_equations; nia.
Qed.

Lemma year_length (y : Z) :
  days_before_year (y + 1) =
    days_before_year y + 365 + (if is_leap y then 1 else 0).
Proof.
  unfold days_before_year, is_leap.
  replace (y + 1 - 1) with y by lia.
  rewrite (div_step y 4), (div_step y 100), (div_step y 400) by lia.
  assert (H4 : y mod 100 = 0 -> y mod 4 = 0).
  { intros E. rewrite <- (Z.mod_mod_divide y 100 4) by (exists 25; lia).
    rewrite E. reflexivity. }
  assert (H100 : y mod 400 = 0 -> y mod 100 = 0).
  { intros E. rewrite <- (Z.mod_mod_divide y 400 100) by (exists 4; lia).
    rewrite E. reflexivity. }
  destruct (Z.eqb_spec (y mod 4) 0), (Z.eqb_spec (y mod 100) 0),
    (Z.eqb_spec (y mod 400) 0); cbn [andb orb negb]; lia.
Qed.

Lemma days_before_year_monotone (y1 y2 : Z) :
  y1 <= y2 -> days_before_year y1 <= days_before_year y2.
Proof.
  intros Hle. revert y2 Hle.
  apply (Z.le_ind (fun y => days_before_year y1 <= days_before_year y)).
  - intros a b ->. reflexivity.
  - lia.
  - intros m _ IH. unfold Z.succ. rewrite year_length.
    destruct (is_leap m); lia.
Qed.

Lemma month_cases (m : Z) :
  1 <= m <= 12 ->
  m = 1 \/ m = 2 \/ m = 3 \/ m = 4 \/ m = 5 \/ m = 6 \/
  m = 7 \/ m = 8 \/ m = 9 \/ m = 10 \/ m = 11 \/ m = 12.
Proof. lia. Qed.

(** One goal per month. *)
Ltac by_month m Hm :=
  let H := fresh "Hcase" in
  pose proof (month_cases m Hm) as H;
  repeat (destruct H as [H | H]); subst m.

Ltac eval_month_table :=
  repeat match goal with
         | |- context [nth ?n ?l ?d] =>
             let v := eval vm_compute in (nth n l d) in
             change (nth n l d) with v
         end.

Lemma day_of_year_bounds (y m d : Z) :
  1 <= m <= 12 -> 1 <= d <= days_in_month y m ->
  1 <= days_before_month y m + d <= 365 + (if is_leap y then 1 else 0).
Proof.
  intros Hm Hd. unfold days_before_month, days_in_month in *.
  destruct (is_leap y); by_month m Hm;
    eval_month_table; cbn -[Z.add] in *; lia.
Qed.

Lemma next_month_start (y m1 d1 m2 : Z) :
  1 <= m1 -> m1 < m2 -> m2 <= 12 -> 1 <= d1 <= days_in_month y m1 ->
  days_before_month y m1 + d1 <= days_before_month y m2.
Proof.
  intros H1 H12 H2 Hd.
  assert (Hm1 : 1 <= m1 <= 12) by lia.
  assert (Hm2 : 1 <= m2 <= 12) by lia.
  unfold days_before_month, days_in_month in *.
  destruct (is_leap y); by_month m1 Hm1; by_month m2 Hm2;
    try lia; eval_month_table; cbn -[Z.add] in *; lia.
Qed.

Lemma Timestamp_ok_bounds (d : Timestamp) :
  Timestamp_ok d = true ->
  1678 <= year d <= 2261 /\ 1 <= month d <= 12
  /\ 1 <= day d <= days_in_month (year d) (month d).
Proof.
  unfold Timestamp_ok. intros H.
  repeat (apply andb_prop in H; destruct H as [H ?]).
  lia.
Qed.

Lemma toordinal_increasing (a b : Timestamp) :
  Timestamp_ok a = true -> Timestamp_ok b = true ->
  Timestamp_ltb a b = true -> toordinal a < toordinal b.
Proof.
  intros Ha Hb Hlt.
  apply Timestamp_ok_bounds in Ha, Hb.
  destruct a as [ya ma da], b as [yb mb db]; cbn [year month day] in *.
  unfold Timestamp_ltb, toordinal in *; cbn [year month day] in *.
  destruct Ha as (_ & Hma & Hda), Hb as (_ & Hmb & Hdb).
  pose proof (day_of_year_bounds ya ma da Hma Hda) as Ba.
  pose proof (day_of_year_bounds yb mb db Hmb Hdb) as Bb.
  apply orb_prop in Hlt. destruct Hlt as [Hy | Hlt].
  - apply Z.ltb_lt in Hy.
    pose proof (year_length ya) as Hlen.
    pose proof (days_before_year_monotone (ya + 1) yb ltac:(lia)).
    lia.
  - apply andb_prop in Hlt. destruct Hlt as [Hy Hlt].
    apply Z.eqb_eq in Hy. subst yb.
    apply orb_prop in Hlt. destruct Hlt as [Hm | Hlt].
    + apply Z.ltb_lt in Hm.
      pose proof (next_month_start ya ma da mb ltac:(lia) Hm ltac:(lia) Hda).
      lia.
    + apply andb_prop in Hlt. destruct Hlt as [Hm Hd].
      apply Z.eqb_eq in Hm. apply Z.ltb_lt in Hd. subst mb. lia.
Qed.

(** ** Length of stay *)

(** ** Forward fill *)

Lemma orelse_assoc {A} (a b c : option A) :
  orelse (orelse a b) c = orelse a (orelse b c).
Proof. destruct a; reflexivity. Qed.

Lemma orelse_None_r {A} (a : option A) : orelse a None = a.
Proof. destruct a; reflexivity. Qed.

Lemma orelse_option_map {A B} (f : A -> B) (a b : option A) :
  option_map f (orelse a b) = orelse (option_map f a) (option_map f b).
Proof. destruct a; reflexivity. Qed.

Lemma get_fill (c : column) (prev cur : Row) :
  get c (fill prev cur) = orelse (get c cur) (get c prev).
Proof. destruct c; cbn; apply orelse_option_map. Qed.

Lemma column_of_ffill_rows (c : column) (rows : list Row) (prev : Row) :
  map (get c) (ffill_rows prev rows)
  = ffill_from (get c prev) (map (get c) rows).
Proof.
  revert prev. induction rows as [| r rs IH]; intros prev; cbn.
  - reflexivity.
  - rewrite IH, get_fill. reflexivity.
Qed.

(** The script's fill, read column by column, is the column fill. *)
Lemma column_of_fillna_ffill (c : column) (df : list Row) :
  map (get c) (fillna_ffill df) = ffill_col (map (get c) df).
Proof.
  unfold fillna_ffill, ffill_col. rewrite column_of_ffill_rows.
  destruct c; reflexivity.
Qed.

Lemma nearest_before_cons {A} (c : option A) (col : list (option A)) (i : nat) :
  nearest_before (c :: col) (S i) = orelse (nearest_before col i) c.
Proof.
  induction i as [| i IH].
  - cbn. destruct c; reflexivity.
  - change (nearest_before (c :: col) (S (S i)))
      with (match nth i col None with
            | Some v => Some v
            | None => nearest_before (c :: col) (S i)
            end).
    rewrite IH. cbn. destruct (nth i col None); reflexivity.
Qed.

Lemma ffill_from_nth_error {A} (col : list (option A)) :
  forall (prev : option A) (i : nat),
    nth_error (ffill_from prev col) i
    = option_map (fun x => orelse x (orelse (nearest_before col i) prev))
                 (nth_error col i).
Proof.
  induction col as [| c col IH]; intros prev i.
  - destruct i; reflexivity.
  - destruct i as [| i].
    + reflexivity.
    + cbn [ffill_from nth_error]. rewrite IH, nearest_before_cons.
      destruct (nth_error col i); cbn; [| reflexivity].
      rewrite orelse_assoc. reflexivity.
Qed.

Lemma ffill_rows_length (rows : list Row) :
  forall prev, List.length (ffill_rows prev rows) = List.length rows.
Proof.
  induction rows as [| r rs IH]; intros prev; cbn; [| rewrite IH]; reflexivity.
Qed.

(** C7. After the cleaning step the table has the same rows, and in every
    column the cell at position [i] is the original cell when that was
    present, and otherwise the nearest present cell before [i] in the same
    column; when no cell before [i] is present it stays missing. *)
Theorem forward_fill_cells (df : list Row) (c : column) (i : nat) :
  List.length (fillna_ffill df) = List.length df
  /\ nth_error (map (get c) (fillna_ffill df)) i
     = option_map
         (fun x => match x with
                   | Some v => Some v
                   | None => nearest_before (map (get c) df) i
                   end)
         (nth_error (map (get c) df) i).
Proof.
  split; [apply ffill_rows_length |].
  rewrite column_of_fillna_ffill. unfold ffill_col.
  rewrite ffill_from_nth_error. cbn [orelse].
  destruct (nth_error (map (get c) df) i) as [[v |] |]; cbn;
    rewrite ?orelse_None_r; reflexivity.
Qed.

(** A missing cell in the first row stays missing; a later one takes the
    last value seen. *)
Example forward_fill_column :
  ffill_col [None; Some 1; None; None; Some 2; None]
  = [None; Some 1; Some 1; Some 1; Some 2; Some 2].
Proof. reflexivity. Qed.

(** ** Readmission rate *)

Lemma Qsum_flags (df : list Enriched) :
  (forall e, In e df ->
             Readmitted (row e) = Some 0 \/ Readmitted (row e) = Some 1) ->
  dropna (map e_Readmitted df)
  = map (fun e => inject_Z (if is_readmitted e then 1 else 0)) df.
Proof.
  induction df as [| e df IH]; intros Hbin; cbn.
  - reflexivity.
  - unfold e_Readmitted at 1, is_readmitted at 1.
    destruct (Hbin e (or_introl eq_refl)) as [-> | ->]; cbn;
      (rewrite IH; [reflexivity | intros; apply Hbin; right; assumption]).
Qed.

Lemma Qsum_indicator (df : list Enriched) :
  (Qsum (map (fun e => inject_Z (if is_readmitted e then 1 else 0)) df)
   == inject_Z (Z.of_nat (List.length (filter is_readmitted df))))%Q.
Proof.
  induction df as [| e df IH].
  - reflexivity.
  - cbn [map Qsum fold_right filter]. fold (Qsum (map (fun e => inject_Z (if is_readmitted e then 1 else 0)) df)).
    rewrite IH. destruct (is_readmitted e); cbn [List.length].
    + rewrite Nat2Z.inj_succ. unfold Z.succ. rewrite inject_Z_plus. ring.
    + ring.
Qed.

Lemma fraction_in_unit_interval (k n : nat) :
  (k <= n)%nat -> (0 < n)%nat ->
  (0 <= inject_Z (Z.of_nat k) / inject_Z (Z.of_nat n)
   /\ inject_Z (Z.of_nat k) / inject_Z (Z.of_nat n) <= 1)%Q.
Proof.
  intros Hk Hn.
  assert (Hpos : (0 < inject_Z (Z.of_nat n))%Q).
  { unfold Qlt, inject_Z; cbn [Qnum Qden]. lia. }
  split.
  - apply Qle_shift_div_l; [exact Hpos |].
    unfold Qle, Qmult, inject_Z; cbn [Qnum Qden]. lia.
  - apply Qle_shift_div_r; [exact Hpos |].
    unfold Qle, Qmult, inject_Z; cbn [Qnum Qden]. lia.
Qed.

Lemma filter_length_le {A} (p : A -> bool) (l : list A) :
  (List.length (filter p l) <= List.length l)%nat.
Proof.
  induction l as [| a l IH]; cbn; [| destruct (p a); cbn]; lia.
Qed.

(** ** Group keys *)

#[global] Instance OrdLaws_Z : OrdLaws Z.
Proof.
  split; cbn.
  - intros a b. apply Z.compare_eq_iff.
  - intros a b. apply Z.compare_antisym.
  - intros a b c. rewrite !Z.compare_lt_iff. lia.
Qed.

#[global] Instance OrdLaws_string : OrdLaws string.
Proof.
  split; cbn.
  - intros a b. apply String_as_OT.cmp_eq.
  - intros a b. apply String_as_OT.cmp_antisym.
  - intros a b c Hab Hbc.
    apply String_as_OT.cmp_lt in Hab, Hbc. apply String_as_OT.cmp_lt.
    eapply String_as_OT.lt_trans; eassumption.
Qed.

Lemma key_lt_Z (a b : Z) : key_lt a b <-> a < b.
Proof. unfold key_lt; cbn. apply Z.compare_lt_iff. Qed.

(** On strings the order is the lexicographic order of the character
    codes. *)
Lemma key_lt_string (a b : string) : key_lt a b <-> String_as_OT.lt a b.
Proof. unfold key_lt; cbn. apply String_as_OT.cmp_lt. Qed.

Section GroupKeys.
Context {K : Type} `{OrdLaws K}.

Lemma cmp_refl (a : K) : cmp a a = Eq.
Proof. apply cmp_eq. reflexivity. Qed.

Lemma key_lt_irrefl (a : K) : ~ key_lt a a.
Proof. unfold key_lt. rewrite cmp_refl. discriminate. Qed.

Lemma cmp_Gt_lt (a b : K) : cmp a b = Gt -> key_lt b a.
Proof.
  unfold key_lt. intros Hgt. rewrite cmp_antisym, Hgt. reflexivity.
Qed.

Lemma key_is_true (k : K) (o : option K) :
  key_is k o = true <-> o = Some k.
Proof.
  unfold key_is. destruct o as [k' |]; [| split; discriminate].
  destruct (cmp k k') eqn:E.
  - apply cmp_eq in E. subst. split; reflexivity.
  - split; [discriminate |]. intros [= ->]. rewrite cmp_refl in E.
    discriminate.
  - split; [discriminate |]. intros [= ->]. rewrite cmp_refl in E.
    discriminate.
Qed.

Lemma insert_key_In (k x : K) (ks : list K) :
  In x (insert_key k ks) <-> x = k \/ In x ks.
Proof.
  induction ks as [| k' r IH]; cbn.
  - intuition congruence.
  - destruct (cmp k k') eqn:E; cbn.
    + apply cmp_eq in E. subst k'. intuition congruence.
    + intuition congruence.
    + rewrite IH. intuition congruence.
Qed.

Lemma insert_key_ascending (k : K) (ks : list K) :
  ascending ks -> ascending (insert_key k ks).
Proof.
  unfold ascending.
  induction ks as [| k' r IH]; intros Hs; cbn.
  - constructor; constructor.
  - inversion Hs as [| ? ? Hr Hall]; subst.
    destruct (cmp k k') eqn:E.
    + exact Hs.
    + constructor; [exact Hs |].
      constructor; [exact E |].
      eapply Forall_impl; [| exact Hall].
      intros x Hx. eapply cmp_lt_trans; eassumption.
    + constructor; [apply IH; exact Hr |].
      apply Forall_forall. intros x Hx.
      apply insert_key_In in Hx. destruct Hx as [-> | Hx].
      * apply cmp_Gt_lt. exact E.
      * rewrite Forall_forall in Hall. apply Hall. exact Hx.
Qed.

Lemma dropna_In {A} (a : A) (col : list (option A)) :
  In a (dropna col) <-> In (Some a) col.
Proof.
  induction col as [| [b |] col IH]; cbn.
  - reflexivity.
  - rewrite IH. intuition congruence.
  - rewrite IH. intuition congruence.
Qed.

Lemma group_keys_In (k : K) (col : list (option K)) :
  In k (group_keys col) <-> In (Some k) col.
Proof.
  unfold group_keys. rewrite <- dropna_In.
  induction (dropna col) as [| a l IH]; cbn.
  - reflexivity.
  - rewrite insert_key_In, IH. intuition congruence.
Qed.

Lemma group_keys_ascending (col : list (option K)) :
  ascending (group_keys col).
Proof.
  unfold group_keys.
  induction (dropna col) as [| a l IH]; cbn.
  - constructor.
  - apply insert_key_ascending. exact IH.
Qed.

(** An ascending list is fixed by the keys it holds. *)
Lemma ascending_unique (l1 l2 : list K) :
  ascending l1 -> ascending l2 ->
  (forall x, In x l1 <-> In x l2) -> l1 = l2.
Proof.
  unfold ascending. revert l2.
  induction l1 as [| a1 t1 IH]; intros l2 S1 S2 Hmem.
  - destruct l2 as [| a2 t2]; [reflexivity |].
    exfalso. apply (Hmem a2). left. reflexivity.
  - destruct l2 as [| a2 t2].
    + exfalso. apply (Hmem a1). left. reflexivity.
    + inversion S1 as [| ? ? S1' A1]; subst.
      inversion S2 as [| ? ? S2' A2]; subst.
      rewrite Forall_forall in A1, A2.
      assert (Ea : a1 = a2).
      { destruct (proj1 (Hmem a1) (or_introl eq_refl)) as [E | In12];
          [symmetry; exact E |].
        destruct (proj2 (Hmem a2) (or_introl eq_refl)) as [E | In21];
          [exact E |].
        exfalso. apply (key_lt_irrefl a1).
        eapply cmp_lt_trans; [apply A1, In21 | apply A2, In12]. }
      subst a2. f_equal. apply IH; try assumption.
      intros x. split; intros Hx.
      * destruct (proj1 (Hmem x) (or_intror Hx)) as [E | Hx2];
          [| exact Hx2].
        subst x. exfalso. apply (key_lt_irrefl a1). apply A1, Hx.
      * destruct (proj2 (Hmem x) (or_intror Hx)) as [E | Hx1];
          [| exact Hx1].
        subst x. exfalso. apply (key_lt_irrefl a1). apply A2, Hx.
Qed.

Lemma group_keys_permutation (col col' : list (option K)) :
  Permutation col col' -> group_keys col' = group_keys col.
Proof.
  intros P. apply ascending_unique; try apply group_keys_ascending.
  intros x. rewrite !group_keys_In.
  split; apply Permutation_in;
    [apply Permutation_sym |]; exact P.
Qed.

Context {R : Type}.

Lemma index_groupby_agg {A V} (key : R -> option K) (val : R -> option A)
    (f : list (option A) -> V) (rows : list R) :
  index (groupby_agg key val f rows) = group_keys (map key rows).
Proof.
  unfold index, groupby_agg, groupby. rewrite !map_map. cbn.
  apply map_id.
Qed.

Lemma index_In {A V} (key : R -> option K) (val : R -> option A)
    (f : list (option A) -> V) (rows : list R) (k : K) :
  In k (index (groupby_agg key val f rows))
  <-> exists r, In r rows /\ key r = Some k.
Proof.
  rewrite index_groupby_agg, group_keys_In, in_map_iff.
  split; intros (r & H1 & H2); exists r; tauto.
Qed.

Lemma groupby_group_nonempty (key : R -> option K) (rows : list R)
    (k : K) (g : list R) :
  In (k, g) (groupby key rows) -> g <> [].
Proof.
  unfold groupby. rewrite in_map_iff. intros (k' & [= -> <-] & Hk).
  apply group_keys_In, in_map_iff in Hk. destruct Hk as (r & Hr & Hin).
  intros Hnil.
  assert (Hf : In r (filter (fun r0 => key_is k (key r0)) rows)).
  { apply filter_In. split; [exact Hin |]. apply key_is_true. exact Hr. }
  rewrite Hnil in Hf. exact Hf.
Qed.

Lemma index_ascending {A V} (key : R -> option K) (val : R -> option A)
    (f : list (option A) -> V) (rows rows' : list R) :
  Permutation rows rows' ->
  ascending (index (groupby_agg key val f rows))
  /\ index (groupby_agg key val f rows')
     = index (groupby_agg key val f rows).
Proof.
  intros P. rewrite !index_groupby_agg. split.
  - apply group_keys_ascending.
  - apply group_keys_permutation. apply Permutation_map. exact P.
Qed.
End GroupKeys.

(** C8. Each grouped result (admission and discharge trend, average stay by
    condition and by department, readmission by condition, outcome counts,
    effectiveness by treatment type) has a label exactly when some row of the
    table carries that key; a key no row carries is absent, and every group
    that is aggregated holds at least one row. *)
Theorem grouped_results_hold_present_keys (df : list Enriched) :
  keys_of_present_rows Admission_Month (admission_trend df) df
  /\ keys_of_present_rows Discharge_Month (discharge_trend df) df
  /\ keys_of_present_rows e_Condition (avg_stay_condition df) df
  /\ keys_of_present_rows e_Department (avg_stay_department df) df
  /\ keys_of_present_rows e_Condition (readmission_by_condition df) df
  /\ keys_of_present_rows e_Outcome (outcome_segment df) df
  /\ keys_of_present_rows e_Treatment_Type (effectiveness_summary df) df
  /\ no_empty_group Admission_Month df
  /\ no_empty_group Discharge_Month df
  /\ no_empty_group e_Condition df
  /\ no_empty_group e_Department df
  /\ no_empty_group e_Outcome df
  /\ no_empty_group e_Treatment_Type df.
Proof.
  unfold keys_of_present_rows, no_empty_group, admission_trend,
    discharge_trend, avg_stay_condition, avg_stay_department,
    readmission_by_condition, outcome_segment, effectiveness_summary.
  repeat match goal with
         | |- _ /\ _ => split
         | |- forall k, In k (index _) <-> _ => intros k; apply index_In
         | |- forall k g, In (k, g) _ -> _ =>
             intros k g Hin; exact (groupby_group_nonempty _ _ k g Hin)
         end.
Qed.

(** C10. In each grouped result the labels stand in strictly ascending order
    of the group key, and feeding the rows in any other order gives the same
    labels in the same order. *)
Theorem grouped_results_sorted_by_key (df df' : list Enriched) :
  Permutation df df' ->
  sorted_same_index (admission_trend df) (admission_trend df')
  /\ sorted_same_index (discharge_trend df) (discharge_trend df')
  /\ sorted_same_index (avg_stay_condition df) (avg_stay_condition df')
  /\ sorted_same_index (avg_stay_department df) (avg_stay_department df')
  /\ sorted_same_index (readmission_by_condition df)
                       (readmission_by_condition df')
  /\ sorted_same_index (outcome_segment df) (outcome_segment df')
  /\ sorted_same_index (effectiveness_summary df) (effectiveness_summary df').
Proof.
  intros P.
  unfold sorted_same_index, admission_trend, discharge_trend,
    avg_stay_condition, avg_stay_department, readmission_by_condition,
    outcome_segment, effectiveness_summary.
  repeat match goal with
         | |- (_ /\ _) /\ _ => split
         | |- ascending _ /\ _ => apply index_ascending; exact P
         end.
Qed.

Lemma grouped_results_sorted_two_rows :
  sorted_same_index
    (avg_stay_condition
       [enrich (Example.flagged_row "Flu" 1 None);
        enrich (Example.flagged_row "Asthma" 0 None)])
    (avg_stay_condition
       [enrich (Example.flagged_row "Asthma" 0 None);
        enrich (Example.flagged_row "Flu" 1 None)]).
Proof.
  exact (proj1 (proj2 (proj2
           (grouped_results_sorted_by_key
              [enrich (Example.flagged_row "Flu" 1 None);
               enrich (Example.flagged_row "Asthma" 0 None)]
              [enrich (Example.flagged_row "Asthma" 0 None);
               enrich (Example.flagged_row "Flu" 1 None)]
              (perm_swap _ _ []))))).
Defined.

Example condition_labels_ascend :
  index (readmission_by_condition
           [enrich (Example.flagged_row "Flu" 1 None);
            enrich (Example.flagged_row "Asthma" 0 None);
            enrich (Example.flagged_row "Flu" 0 None)])
  = ["Asthma"; "Flu"]%string.
Proof. reflexivity. Qed.

(** ** Merge *)

Section LeftJoin.
Context {L R O : Type}.
Variable matches : L -> R -> bool.
Variable combine : L -> option R -> O.

Lemma left_join_joined (ls : list L) (rs : list R) :
  left_join matches combine ls rs
  = flat_map (fun l => map (combine l) (joined matches l rs)) ls.
Proof.
  unfold left_join, joined. apply flat_map_ext. intros l.
  destruct (filter (matches l) rs); [reflexivity |].
  rewrite map_map. reflexivity.
Qed.

Lemma joined_length (l : L) (rs : list R) :
  List.length (joined matches l rs)
  = Nat.max 1 (List.length (filter (matches l) rs)).
Proof.
  unfold joined. destruct (filter (matches l) rs) as [| r ms].
  - reflexivity.
  - rewrite length_map. cbn [List.length]. lia.
Qed.

Lemma joined_In (l : L) (rs : list R) (o : option R) :
  In o (joined matches l rs) ->
  match o with
  | Some r => In r rs /\ matches l r = true
  | None => filter (matches l) rs = []
  end.
Proof.
  unfold joined. destruct (filter (matches l) rs) as [| r0 ms] eqn:E.
  - intros [<- | []]. reflexivity.
  - rewrite <- E. intros Hin. apply in_map_iff in Hin.
    destruct Hin as (r & <- & Hr). apply filter_In in Hr. exact Hr.
Qed.

Lemma map_const_repeat {A} (a : A) (l : list (option R)) :
  map (fun _ => a) l = repeat a (List.length l).
Proof. induction l as [| x l IH]; cbn; [| rewrite IH]; reflexivity. Qed.

(** A left join keeps every left row, in order, once per match and at
    least once. *)
Lemma left_join_left_rows (left_of : O -> L) (ls : list L) (rs : list R) :
  (forall l o, left_of (combine l o) = l) ->
  map left_of (left_join matches combine ls rs)
  = flat_map
      (fun l => repeat l (Nat.max 1 (List.length (filter (matches l) rs))))
      ls.
Proof.
  intros Hproj. rewrite left_join_joined.
  induction ls as [| l ls IH]; cbn [flat_map].
  - reflexivity.
  - rewrite map_app, IH. f_equal.
    rewrite map_map, <- joined_length, <- map_const_repeat.
    apply map_ext. intros o. apply Hproj.
Qed.

Lemma left_join_In (ls : list L) (rs : list R) (o : O) :
  In o (left_join matches combine ls rs) ->
  exists l r, In l ls /\ o = combine l r /\ In r (joined matches l rs).
Proof.
  rewrite left_join_joined, in_flat_map. intros (l & Hl & Ho).
  apply in_map_iff in Ho. destruct Ho as (r & <- & Hr).
  exists l, r. auto.
Qed.
End LeftJoin.

Lemma flat_map_repeat {A} (k : A -> nat) (a : A) (n : nat) :
  flat_map (fun x => repeat x (k x)) (repeat a n) = repeat a (n * k a).
Proof.
  induction n as [| n IH]; cbn.
  - reflexivity.
  - rewrite IH, repeat_app. reflexivity.
Qed.

Lemma patient_hospital_of_with_treatment ph t :
  patient_hospital_of (with_treatment ph t) = ph.
Proof. destruct ph as [[] ?]. reflexivity. Qed.

Lemma ph_patient_with_hospital p h : ph_patient (with_hospital p h) = p.
Proof. reflexivity. Qed.

Lemma map_flat_map_repeat {A B} (f : A -> B) (k : B -> nat) (l : list A) :
  map f (flat_map (fun x => repeat x (k (f x))) l)
  = flat_map (fun y => repeat y (k y)) (map f l).
Proof.
  induction l as [| a l IH]; cbn.
  - reflexivity.
  - rewrite map_app, map_repeat, IH. reflexivity.
Qed.

Lemma merge_patient_rows (patients : list Patient) (hospitals : list Hospital)
    (treatments : list Treatment) :
  map patient_of (merge patients hospitals treatments)
  = flat_map
      (fun p => repeat p (Nat.max 1 (hospital_matches p hospitals)
                          * Nat.max 1 (treatment_matches p treatments)))
      patients.
Proof.
  unfold merge.
  change patient_of with (fun r => ph_patient (patient_hospital_of r)).
  rewrite <- (map_map patient_hospital_of ph_patient).
  rewrite (left_join_left_rows on_Condition with_treatment
             patient_hospital_of _ _ patient_hospital_of_with_treatment).
  rewrite (map_flat_map_repeat ph_patient
             (fun p => Nat.max 1 (treatment_matches p treatments))).
  rewrite (left_join_left_rows on_Hospital_ID with_hospital ph_patient
             _ _ ph_patient_with_hospital).
  induction patients as [| p ps IH]; cbn [flat_map].
  - reflexivity.
  - rewrite flat_map_app, IH. f_equal.
    apply (flat_map_repeat
             (fun p => Nat.max 1 (treatment_matches p treatments))).
Qed.

Lemma key_eqb_eq (a b : option string) : key_eqb a b = true <-> a = b.
Proof.
  destruct a as [x |], b as [y |]; cbn; try (split; congruence).
  rewrite String.eqb_eq. split; congruence.
Qed.

Lemma length_zero_nil {A} (l : list A) : l = [] -> List.length l = 0%nat.
Proof. intros ->. reflexivity. Qed.

Lemma merge_rows (patients : list Patient) (hospitals : list Hospital)
    (treatments : list Treatment) (r : Row) :
  In r (merge patients hospitals treatments) ->
  In (patient_of r) patients
  /\ ((exists h, In h hospitals
                 /\ Hospital_ID r = hosp_Hospital_ID h
                 /\ Department r = hosp_Department h)
      \/ (hospital_matches (patient_of r) hospitals = 0%nat
          /\ Department r = None))
  /\ ((exists t, In t treatments
                 /\ Condition r = trt_Condition t
                 /\ Treatment_Type r = trt_Treatment_Type t
                 /\ Effectiveness_Rate r = trt_Effectiveness_Rate t)
      \/ (treatment_matches (patient_of r) treatments = 0%nat
          /\ Treatment_Type r = None /\ Effectiveness_Rate r = None)).
Proof.
  unfold merge. intros Hin.
  apply left_join_In in Hin. destruct Hin as (ph & t & Hph & -> & Ht).
  apply left_join_In in Hph. destruct Hph as (p & h & Hp & -> & Hh).
  apply joined_In in Ht, Hh.
  assert (Ep : patient_of (with_treatment (with_hospital p h) t) = p)
    by (destruct p; reflexivity).
  rewrite Ep. split; [exact Hp |]. split.
  - destruct h as [h |].
    + left. exists h. destruct Hh as [Hh Hm]. apply key_eqb_eq in Hm.
      repeat split; assumption.
    + right. split; [apply length_zero_nil; exact Hh | reflexivity].
  - destruct t as [t |].
    + left. exists t. destruct Ht as [Ht Hm]. apply key_eqb_eq in Hm.
      repeat split; assumption.
    + right. split; [apply length_zero_nil; exact Ht |].
      split; reflexivity.
Qed.

(** C5, as stated, fails: a patient whose condition matches one treatment
    row appears twice in the output when two hospital rows carry the
    patient's hospital identifier. *)
Lemma merge_fans_out_on_hospitals_too :
  treatment_matches Example.P1 [Example.Flu_Antiviral] = 1%nat
  /\ map patient_of
       (merge [Example.P1] [Example.H1; Example.H1_ICU]
              [Example.Flu_Antiviral])
     = [Example.P1; Example.P1].
Proof. split; reflexivity. Qed.

(** C5, amended. The merge is the left join of the patients to the
    hospitals on the hospital identifier followed by the left join of the
    result to the treatments on the condition, both matching keys by
    equality.  Every patient row is kept, in order: a patient row matching
    [h] hospital rows and [k] treatment rows appears [max 1 h * max 1 k]
    times (so [k] times when [k >= 1] and at most one hospital row matches).
    Each output row carries the fields of a hospital row with its hospital
    identifier, or a missing department when there is none, and the fields
    of a treatment row with its condition, or missing treatment fields when
    there is none. *)
Theorem merge_is_two_left_joins (patients : list Patient)
    (hospitals : list Hospital) (treatments : list Treatment) :
  merge patients hospitals treatments
  = left_join on_Condition with_treatment
      (left_join on_Hospital_ID with_hospital patients hospitals) treatments
  /\ (forall a b, key_eqb a b = true <-> a = b)
  /\ map patient_of (merge patients hospitals treatments)
     = flat_map
         (fun p => repeat p (Nat.max 1 (hospital_matches p hospitals)
                             * Nat.max 1 (treatment_matches p treatments)))
         patients
  /\ forall r, In r (merge patients hospitals treatments) ->
       In (patient_of r) patients
       /\ ((exists h, In h hospitals
                      /\ Hospital_ID r = hosp_Hospital_ID h
                      /\ Department r = hosp_Department h)
           \/ (hospital_matches (patient_of r) hospitals = 0%nat
               /\ Department r = None))
       /\ ((exists t, In t treatments
                      /\ Condition r = trt_Condition t
                      /\ Treatment_Type r = trt_Treatment_Type t
                      /\ Effectiveness_Rate r = trt_Effectiveness_Rate t)
           \/ (treatment_matches (patient_of r) treatments = 0%nat
               /\ Treatment_Type r = None /\ Effectiveness_Rate r = None)).
Proof.
  split; [reflexivity |]. split; [exact key_eqb_eq |].
  split; [apply merge_patient_rows |]. apply merge_rows.
Qed.

Example merge_fan_out_on_treatments :
  map Treatment_Type
    (merge [Example.P1] [Example.H1]
           [Example.Flu_Antiviral;
            mkTreatment (Some "Flu"%string) (Some "Rest"%string) None;
            mkTreatment (Some "Cold"%string) (Some "Tea"%string) None])
  = [Some "Antiviral"%string; Some "Rest"%string].
Proof. reflexivity. Qed.

Example merge_unmatched_is_null :
  map (fun r => (Department r, Treatment_Type r, Effectiveness_Rate r))
    (merge [Example.P1] [] [])
  = [(None, None, None)].
Proof. reflexivity. Qed.

(** ** The most frequent treatment type *)

Lemma insert_desc_permutation (e : string * nat) (l : list (string * nat)) :
  Permutation (insert_desc e l) (e :: l).
Proof.
  induction l as [| e' r IH]; cbn [insert_desc].
  - apply Permutation_refl.
  - destruct (Nat.ltb (snd e) (snd e')).
    + eapply perm_trans; [apply perm_skip, IH | apply perm_swap].
    + apply Permutation_refl.
Qed.

(** [value_counts] orders the entries it is given, losing none. *)
Lemma sort_desc_permutation (l : list (string * nat)) :
  Permutation (sort_desc l) l.
Proof.
  induction l as [| e l IH]; cbn [sort_desc fold_right].
  - apply perm_nil.
  - eapply perm_trans; [apply insert_desc_permutation |].
    apply perm_skip, IH.
Qed.

Lemma insert_desc_sorted (e : string * nat) (l : list (string * nat)) :
  StronglySorted (fun a b => (snd b <= snd a)%nat) l ->
  StronglySorted (fun a b => (snd b <= snd a)%nat) (insert_desc e l).
Proof.
  induction l as [| e' r IH]; intros Hs; cbn [insert_desc].
  - constructor; constructor.
  - inversion Hs as [| ? ? Hr Hall]; subst.
    destruct (Nat.ltb_spec (snd e) (snd e')) as [Hlt | Hge].
    + constructor; [apply IH, Hr |].
      apply Forall_forall. intros x Hx.
      apply (Permutation_in _ (insert_desc_permutation e r)) in Hx.
      destruct Hx as [<- | Hx]; [lia |].
      rewrite Forall_forall in Hall. apply Hall, Hx.
    + constructor; [exact Hs |].
      constructor; [exact Hge |].
      eapply Forall_impl; [| exact Hall]. cbn. intros x Hx. lia.
Qed.

Lemma sort_desc_sorted (l : list (string * nat)) :
  StronglySorted (fun a b => (snd b <= snd a)%nat) (sort_desc l).
Proof.
  induction l as [| e l IH]; cbn [sort_desc fold_right].
  - constructor.
  - apply insert_desc_sorted, IH.
Qed.

(** The head of a count-ordered list is its first entry of largest count. *)
Lemma sort_desc_head (l : list (string * nat)) :
  l <> [] ->
  exists e rest pre post,
    sort_desc l = e :: rest
    /\ l = pre ++ e :: post
    /\ (forall x, In x pre -> (snd x < snd e)%nat)
    /\ (forall x, In x post -> (snd x <= snd e)%nat).
Proof.
  induction l as [| x l IH]; intros Hne; [congruence |].
  destruct l as [| y l'].
  - exists x, [], [], []. cbn. repeat split; intros ? [].
  - destruct IH as (h & rest & pre & post & Hs & Hl & Hpre & Hpost);
      [discriminate |].
    change (sort_desc (x :: y :: l')) with (insert_desc x (sort_desc (y :: l'))).
    rewrite Hs. cbn [insert_desc].
    destruct (Nat.ltb_spec (snd x) (snd h)) as [Hlt | Hge].
    + exists h, (insert_desc x rest), (x :: pre), post.
      split; [reflexivity |]. split; [rewrite Hl; reflexivity |].
      split; [| exact Hpost].
      intros z [<- | Hz]; [exact Hlt | apply Hpre; exact Hz].
    + exists x, (h :: rest), [], (y :: l').
      split; [reflexivity |]. split; [reflexivity |].
      split; [intros ? [] |].
      intros z Hz. rewrite Hl in Hz. apply in_app_or in Hz.
      destruct Hz as [Hz | [<- | Hz]].
      * apply Hpre in Hz. lia.
      * exact Hge.
      * apply Hpost in Hz. lia.
Qed.

Lemma filter_split {A} (p : A -> bool) (l a b : list A) (t : A) :
  filter p l = a ++ t :: b ->
  exists m1 m2, l = m1 ++ t :: m2 /\ filter p m1 = a /\ p t = true.
Proof.
  revert a. induction l as [| y l IH]; intros a Hf; cbn in Hf.
  - destruct a; discriminate.
  - destruct (p y) eqn:Hp.
    + destruct a as [| a0 a'].
      * injection Hf as -> _. exists [], l. auto.
      * injection Hf as <- Hf. destruct (IH a' Hf) as (m1 & m2 & -> & <- & Ht).
        exists (y :: m1), m2. cbn. rewrite Hp. auto.
    + destruct (IH a Hf) as (m1 & m2 & -> & <- & Ht).
      exists (y :: m1), m2. cbn. rewrite Hp. auto.
Qed.

Lemma unique_In (x : string) (xs : list string) :
  In x (unique xs) <-> In x xs.
Proof.
  induction xs as [| y r IH]; cbn; [reflexivity |].
  rewrite filter_In, IH.
  destruct (String.eqb_spec x y) as [-> | Hne]; cbn.
  - intuition.
  - intuition congruence.
Qed.

(** An entry of [unique xs] stands after the entries whose first
    occurrence in [xs] precedes its own. *)
Lemma unique_split (xs upre upost : list string) (t : string) :
  unique xs = upre ++ t :: upost ->
  exists pre post,
    xs = pre ++ t :: post
    /\ ~ In t pre
    /\ forall x, In x pre -> In x upre.
Proof.
  revert upre upost. induction xs as [| x r IH]; intros upre upost Hu;
    cbn in Hu.
  - destruct upre; discriminate.
  - destruct upre as [| u upre'].
    + injection Hu as -> _. exists [], r. repeat split; auto.
    + injection Hu as <- Hu.
      apply filter_split in Hu. destruct Hu as (m1 & m2 & Hr & Hm1 & Ht).
      destruct (IH m1 m2 Hr) as (pre & post & -> & Hnot & Hsub).
      apply negb_true_iff, String.eqb_neq in Ht.
      exists (x :: pre), post. split; [reflexivity |]. split.
      * intros [E | Hin]; [congruence | exact (Hnot Hin)].
      * intros z [<- | Hz]; [left; reflexivity |].
        destruct (String.eqb_spec z x) as [-> | Hne]; [left; reflexivity |].
        right. rewrite <- Hm1. apply filter_In. split; [apply Hsub, Hz |].
        apply negb_true_iff, String.eqb_neq. exact Hne.
Qed.

(** [most_frequent] on a column with some treatment type, with the order
    [sort_desc] leaves equal counts in: its value has the largest count,
    and every value seen before its first occurrence has a strictly smaller
    count. *)
Lemma most_frequent_spec (col : list (option string)) :
  dropna col <> [] ->
  exists t pre post,
    most_frequent col = Ok t
    /\ dropna col = pre ++ t :: post
    /\ ~ In t pre
    /\ (forall t', In t' (dropna col) ->
          (occurrences t' (dropna col) <= occurrences t (dropna col))%nat)
    /\ (forall t', In t' pre ->
          (occurrences t' (dropna col) < occurrences t (dropna col))%nat).
Proof.
  intros Hne. unfold most_frequent, value_counts.
  set (xs := dropna col) in *.
  set (l := map (fun v => (v, occurrences v xs)) (unique xs)).
  assert (Hl : l <> []).
  { unfold l. destruct xs as [| x r]; [congruence | discriminate]. }
  destruct (sort_desc_head l Hl)
    as ([t n] & rest & lpre & lpost & Hs & Hsplit & Hpre & Hpost).
  unfold l in Hsplit.
  apply map_eq_app in Hsplit.
  destruct Hsplit as (upre & utail & Hu & Hupre & Hutail).
  apply map_eq_cons in Hutail.
  destruct Hutail as (t0 & upost & -> & [= <- <-] & Hupost).
  destruct (unique_split xs upre upost t0 Hu) as (pre & post & Hxs & Hnot & Hsub).
  exists t0, pre, post. rewrite Hs. cbn [index0].
  split; [reflexivity |]. split; [exact Hxs |]. split; [exact Hnot |]. split.
  - intros t' Hin. apply unique_In in Hin. rewrite Hu in Hin.
    apply in_app_or in Hin. destruct Hin as [Hin | [<- | Hin]].
    + apply Nat.lt_le_incl.
      apply (Hpre (t', occurrences t' xs)). rewrite <- Hupre.
      apply (in_map (fun v => (v, occurrences v xs))). exact Hin.
    + apply Nat.le_refl.
    + apply (Hpost (t', occurrences t' xs)). rewrite <- Hupost.
      apply (in_map (fun v => (v, occurrences v xs))). exact Hin.
  - intros t' Hin.
    apply (Hpre (t', occurrences t' xs)). rewrite <- Hupre.
    apply (in_map (fun v => (v, occurrences v xs))). apply Hsub. exact Hin.
Qed.

Lemma most_frequent_raises (col : list (option string)) :
  dropna col = [] -> most_frequent col = Raise IndexError.
Proof.
  intros E. unfold most_frequent, value_counts. rewrite E. reflexivity.
Qed.

Section AggRaising.
Context {K : Type} `{OrdLaws K} {R A V : Type}.
Variable val : R -> option A.
Variable f : list (option A) -> result V.
Variable group : K -> list R.

Lemma mapM_groups (keys : list K) :
  (forall k, In k keys -> exists v, f (map val (group k)) = Ok v) ->
  exists res,
    mapM (fun g => bind (f (map val (snd g))) (fun v => Ok (fst g, v)))
         (map (fun k => (k, group k)) keys) = Ok res
    /\ forall k v, In k keys -> f (map val (group k)) = Ok v ->
                   loc k res = Some v.
Proof.
  induction keys as [| k0 keys IH]; intros Hall.
  - exists []. split; [reflexivity |]. intros ? ? [].
  - destruct (Hall k0 (or_introl eq_refl)) as (v0 & Hv0).
    destruct IH as (res & Hres & Hloc).
    { intros k Hk. apply Hall. right. exact Hk. }
    exists ((k0, v0) :: res). split.
    + cbn. rewrite Hv0. cbn. rewrite Hres. reflexivity.
    + intros k v Hk Hv. cbn.
      destruct (cmp k k0) eqn:E.
      * apply cmp_eq in E. subst k0. congruence.
      * destruct Hk as [-> | Hk]; [rewrite cmp_refl in E; discriminate |].
        apply Hloc; assumption.
      * destruct Hk as [-> | Hk]; [rewrite cmp_refl in E; discriminate |].
        apply Hloc; assumption.
Qed.

(** One group on which [f] raises is enough for the whole aggregation to
    raise. *)
Lemma mapM_groups_raise (keys : list K) (k : K) (e : exn) :
  In k keys -> f (map val (group k)) = Raise e ->
  exists e',
    mapM (fun g => bind (f (map val (snd g))) (fun v => Ok (fst g, v)))
         (map (fun k => (k, group k)) keys) = Raise e'.
Proof.
  induction keys as [| k0 keys IH]; intros Hin Hk; [destruct Hin |].
  cbn. destruct (f (map val (group k0))) as [v0 | e0] eqn:E0; cbn.
  - destruct Hin as [-> | Hin]; [congruence |].
    destruct (IH Hin Hk) as (e' & ->). exists e'. reflexivity.
  - exists e0. reflexivity.
Qed.
End AggRaising.

Lemma readmitted_condition_is_key (df : list Enriched) (c : string) :
  In c (group_keys (map e_Condition (filter is_readmitted df)))
  <-> exists e, In e df /\ is_readmitted e = true /\ e_Condition e = Some c.
Proof.
  rewrite group_keys_In, in_map_iff. split.
  - intros (e & He & Hin). apply filter_In in Hin. exists e. tauto.
  - intros (e & Hin & Hr & Hc). exists e. split; [exact Hc |].
    apply filter_In. tauto.
Qed.

(** A condition whose readmitted rows carry no treatment type makes the
    whole computation raise. *)
Lemma interventions_raise (df : list Enriched) (c : string) :
  (exists e, In e df /\ is_readmitted e = true /\ e_Condition e = Some c) ->
  readmitted_treatments c df = [] ->
  interventions df = Raise IndexError.
Proof.
  intros Hc Hnil.
  unfold interventions, groupby_agg_raising, groupby.
  set (rows := filter is_readmitted df).
  set (group := fun k : string =>
                  filter (fun r => key_is k (e_Condition r)) rows).
  destruct (mapM_groups_raise e_Treatment_Type most_frequent group
              (group_keys (map e_Condition rows)) c IndexError)
    as ([] & Hraise).
  - apply readmitted_condition_is_key. exact Hc.
  - apply most_frequent_raises. exact Hnil.
  - exact Hraise.
Qed.

(** C4, as stated, fails: a condition whose readmitted rows carry no
    treatment type has no most frequent one, and the computation of the
    interventions stops with an index error; so it does for the example
    patient when the treatment table has no row for "Flu". *)
Lemma interventions_raise_without_treatment :
  interventions [enrich (Example.flagged_row "Flu" 1 None)] = Raise IndexError
  /\ interventions (analysis_table [Example.P1] [Example.H1] [])
     = Raise IndexError.
Proof. split; reflexivity. Qed.

(** ** Export and reload *)

Import Csv.

Lemma digit_val_digit (n : Z) : 0 <= n <= 9 -> digit_val (digit n) = Some n.
Proof.
  intros Hn. unfold digit_val, digit.
  rewrite N_ascii_embedding by lia.
  replace (Z.of_N (48 + Z.to_N n) - 48) with n by lia.
  destruct (Z.leb_spec 0 n), (Z.leb_spec n 9); try lia. reflexivity.
Qed.

Lemma number_pad2 (n : Z) :
  0 <= n <= 99 -> number [digit (n / 10); digit (n mod 10)] = Some n.
Proof.
  intros Hn. unfold number. cbn [fold_left].
  rewrite !digit_val_digit by (Z.div_mod_to_equations; lia).
  f_equal. Z.div_mod_to_equations. lia.
Qed.

Lemma number_pad4 (n : Z) :
  0 <= n <= 9999 ->
  number [digit (n / 1000); digit (n / 100 mod 10);
          digit (n mod 100 / 10); digit (n mod 100 mod 10)] = Some n.
Proof.
  intros Hn. unfold number. cbn [fold_left].
  rewrite !digit_val_digit by (Z.div_mod_to_equations; lia).
  f_equal. Z.div_mod_to_equations. lia.
Qed.

Lemma parse_format_date (d : Timestamp) :
  Timestamp_ok d = true -> parse_date (format_date d) = Some d.
Proof.
  intros Hok. pose proof (Timestamp_ok_bounds d Hok) as (Hy & Hm & Hd).
  assert (Hd31 : day d <= 31).
  { unfold days_in_month in Hd.
    destruct (month d =? 2), (is_leap (year d)),
      ((month d =? 4) || (month d =? 6) || (month d =? 9) || (month d =? 11));
      lia. }
  unfold parse_date, format_date, pad4, pad2.
  cbn [list_ascii_of_string].
  change (Ascii.eqb dash dash) with true. cbn [andb].
  rewrite number_pad4 by lia. rewrite !number_pad2 by lia.
  destruct d as [y m dd]; cbn [year month day] in *.
  rewrite Hok. reflexivity.
Qed.

Lemma read_date_cell_date_cell (c : option Timestamp) :
  date_cell_ok c = true -> read_date_cell (date_cell c) = c.
Proof.
  destruct c as [d |]; cbn [date_cell_ok date_cell]; intros Hok.
  - unfold read_date_cell.
    replace (String.eqb (format_date d) EmptyString) with false
      by reflexivity.
    apply parse_format_date. exact Hok.
  - reflexivity.
Qed.

Section RoundTrip.
Variable str_cell : option string -> string.
Variable read_str : string -> option string.
Variable int_cell : option Z -> string.
Variable read_int : string -> option Z.
Variable num_cell : option Q -> string.
Variable read_num : string -> option Q.

Let write := to_csv_row str_cell int_cell num_cell.
Let read := read_csv_row read_str read_int read_num.

(** A reloaded row has the dates of the exported one. *)
Lemma read_csv_row_dates (e : Enriched) :
  dates_ok (row e) = true ->
  exists r, read (write e) = inr r
            /\ DOB r = DOB (row e)
            /\ Admission_Date r = Admission_Date (row e)
            /\ Discharge_Date r = Discharge_Date (row e).
Proof.
  unfold dates_ok. intros Hok.
  apply andb_prop in Hok. destruct Hok as [Hok H3].
  apply andb_prop in Hok. destruct Hok as [H1 H2].
  eexists. split; [reflexivity |]. cbn.
  rewrite !read_date_cell_date_cell by assumption. auto.
Qed.

Lemma derived_enrich (r r' : Row) :
  DOB r' = DOB r -> Admission_Date r' = Admission_Date r ->
  Discharge_Date r' = Discharge_Date r ->
  derived (enrich r') = derived (enrich r).
Proof.
  intros E1 E2 E3. unfold derived, enrich; cbn. rewrite E1, E2, E3.
  reflexivity.
Qed.

Lemma read_csv_to_csv (rows : list Row) :
  forallb dates_ok rows = true ->
  exists rows',
    read_csv read_str read_int read_num
             (to_csv str_cell int_cell num_cell (map enrich rows))
    = inr rows'
    /\ map derived (map enrich rows') = map derived (map enrich rows).
Proof.
  induction rows as [| r rows IH]; intros Hok.
  - exists []. split; reflexivity.
  - cbn [forallb] in Hok. apply andb_prop in Hok. destruct Hok as [Hr Hrest].
    destruct (IH Hrest) as (rows' & Hread & Hderived).
    destruct (read_csv_row_dates (enrich r) Hr) as (r' & Hr' & E1 & E2 & E3).
    exists (r' :: rows'). split.
    + unfold to_csv in *. cbn [map read_csv].
      unfold write, read in Hr'. rewrite Hr', Hread. reflexivity.
    + cbn [map]. rewrite Hderived. f_equal.
      apply derived_enrich; assumption.
Qed.

(** C9. Exporting the enriched table (dates written as YYYY-MM-DD, a
    missing date as the empty field), reading it back and recomputing the
    derived columns against the same reference date gives, row for row,
    the age, age group and length of stay of the original table. *)
Theorem export_reload_keeps_derived_columns (rows : list Row) :
  forallb dates_ok rows = true ->
  exists df',
    reload_and_enrich str_cell read_str int_cell read_int num_cell read_num
                      (map enrich rows) = inr df'
    /\ map derived df' = map derived (map enrich rows).
Proof.
  intros Hok. destruct (read_csv_to_csv rows Hok) as (rows' & Hread & Hd).
  exists (map enrich rows'). unfold reload_and_enrich. rewrite Hread.
  split; [reflexivity | exact Hd].
Qed.
End RoundTrip.

Lemma export_reload_of_the_example :
  exists df',
    reload_and_enrich Example.text_cell Example.read_text
                      Example.integer_cell Example.read_integer
                      Example.rate_cell Example.read_rate
                      Example.df = inr df'
    /\ map derived df' = map derived Example.df.
Proof.
  apply (export_reload_keeps_derived_columns
           Example.text_cell Example.read_text
           Example.integer_cell Example.read_integer
           Example.rate_cell Example.read_rate
           (fillna_ffill
              (merge [Example.P1] [Example.H1] [Example.Flu_Antiviral]))).
  reflexivity.
Defined.

Example export_of_the_example :
  to_csv Example.text_cell Example.integer_cell Example.rate_cell Example.df
  = [["P1"; "2000-01-01"; "2024-01-05"; "2024-01-10"; EmptyString; "Flu";
      "H1"; "1"; "Improved"; "General"; "Antiviral"; "8/10";
      "24"; "Young Adult"; "1"; "1"; "5"]]%string
  /\ reload_and_enrich Example.text_cell Example.read_text
                       Example.integer_cell Example.read_integer
                       Example.rate_cell Example.read_rate
                       Example.df = inr Example.df.
Proof. split; reflexivity. Qed.

(* ================================================================== *)
(** * Further properties of the pipeline *)

Import Reports.

(** ** Forward fill, again *)

Lemma orelse_absorb {A} (a b : option A) :
  orelse (orelse a b) b = orelse a b.
Proof. destruct a; destruct b; reflexivity. Qed.

Lemma fill_fill (prev r : Row) : fill prev (fill prev r) = fill prev r.
Proof. unfold fill; cbn. rewrite !orelse_absorb. reflexivity. Qed.

Lemma ffill_rows_idempotent (rows : list Row) :
  forall prev, ffill_rows prev (ffill_rows prev rows) = ffill_rows prev rows.
Proof.
  induction rows as [| r rs IH]; intros prev; cbn.
  - reflexivity.
  - rewrite fill_fill. f_equal. apply IH.
Qed.

(** X1. Cleaning a cleaned table changes nothing. *)
Theorem fillna_ffill_idempotent (df : list Row) :
  fillna_ffill (fillna_ffill df) = fillna_ffill df.
Proof. unfold fillna_ffill. apply ffill_rows_idempotent. Qed.

Lemma ffill_from_filled {A} (col : list (option A)) :
  forall (prev : option A) (v : A) (i : nat),
    prev = Some v -> (i < List.length col)%nat ->
    exists w, nth_error (ffill_from prev col) i = Some (Some w).
Proof.
  induction col as [| c col IH]; intros prev v i Hp Hi; cbn in Hi; [lia |].
  cbn [ffill_from]. subst prev.
  assert (Hc : exists u, orelse c (Some v) = Some u)
    by (destruct c; eexists; reflexivity).
  destruct Hc as (u & Hu). rewrite Hu.
  destruct i as [| i]; cbn [nth_error].
  - exists u. reflexivity.
  - apply (IH (Some u) u i eq_refl). lia.
Qed.

Lemma ffill_from_after_present {A} (col : list (option A)) :
  forall (prev : option A) (v : A) (j i : nat),
    nth_error col j = Some (Some v) -> (j <= i)%nat ->
    (i < List.length col)%nat ->
    exists w, nth_error (ffill_from prev col) i = Some (Some w).
Proof.
  induction col as [| c col IH]; intros prev v j i Hj Hji Hi;
    cbn in Hi; [lia |].
  cbn [ffill_from]. destruct j as [| j]; cbn [nth_error] in Hj.
  - injection Hj as ->. cbn [orelse].
    destruct i as [| i]; cbn [nth_error].
    + exists v. reflexivity.
    + apply (ffill_from_filled col (Some v) v i eq_refl). lia.
  - destruct i as [| i]; [lia |]. cbn [nth_error].
    apply (IH _ v j i Hj); lia.
Qed.

(** X2. Below a present cell of a column the cleaned column has no
    missing cell: after the cleaning step the missing cells of a column
    are the ones above its first present cell. *)
Theorem fillna_ffill_fills_below (df : list Row) (c : column)
    (j i : nat) (v : cell) :
  nth_error (map (get c) df) j = Some (Some v) ->
  (j <= i)%nat ->
  (i < List.length df)%nat ->
  exists w, nth_error (map (get c) (fillna_ffill df)) i = Some (Some w).
Proof.
  intros Hj Hji Hi. rewrite column_of_fillna_ffill. unfold ffill_col.
  apply (ffill_from_after_present _ None v j i Hj Hji).
  rewrite length_map. exact Hi.
Qed.

Lemma fillna_ffill_fills_below_example :
  exists w,
    nth_error
      (map (get cTreatment_Type)
           (fillna_ffill
              [Example.flagged_row "Flu" 1 (Some "Rest"%string);
               Example.flagged_row "Cold" 0 None]))
      1
    = Some (Some w).
Proof.
  apply (fillna_ffill_fills_below _ cTreatment_Type 0 1 (Str "Rest"));
    [reflexivity | lia | cbn; lia].
Defined.

(** ** Row counts *)

Lemma flat_map_repeat_length {A} (k : A -> nat) (l : list A) :
  (forall a, In a l -> (1 <= k a)%nat) ->
  (List.length l <= List.length (flat_map (fun a => repeat a (k a)) l))%nat.
Proof.
  induction l as [| a l IH]; intros Hk; cbn [flat_map List.length].
  - lia.
  - rewrite length_app, repeat_length.
    specialize (Hk a (or_introl eq_refl)) as Ha.
    assert (List.length l
            <= List.length (flat_map (fun a => repeat a (k a)) l))%nat
      by (apply IH; intros; apply Hk; right; assumption).
    lia.
Qed.

Lemma flat_map_repeat_once {A} (k : A -> nat) (l : list A) :
  (forall a, In a l -> k a = 1%nat) ->
  flat_map (fun a => repeat a (k a)) l = l.
Proof.
  induction l as [| a l IH]; intros Hk; cbn [flat_map].
  - reflexivity.
  - rewrite (Hk a (or_introl eq_refl)). cbn [repeat app]. f_equal.
    apply IH. intros; apply Hk; right; assumption.
Qed.

Lemma analysis_table_length (patients : list Patient)
    (hospitals : list Hospital) (treatments : list Treatment) :
  List.length (analysis_table patients hospitals treatments)
  = List.length (merge patients hospitals treatments)
  /\ (List.length patients
      <= List.length (analysis_table patients hospitals treatments))%nat.
Proof.
  assert (E : List.length (analysis_table patients hospitals treatments)
              = List.length (merge patients hospitals treatments)).
  { unfold analysis_table, fillna_ffill.
    rewrite length_map, ffill_rows_length. reflexivity. }
  split; [exact E |]. rewrite E.
  rewrite <- (length_map patient_of), merge_patient_rows.
  apply (flat_map_repeat_length
           (fun p => (Nat.max 1 (hospital_matches p hospitals)
                      * Nat.max 1 (treatment_matches p treatments))%nat)).
  intros p _. nia.
Qed.

(** X4. When no patient matches more than one hospital row or more than
    one treatment row, the merge has one row per patient, with the patient
    columns as they were and in the same order. *)
Theorem merge_without_fan_out (patients : list Patient)
    (hospitals : list Hospital) (treatments : list Treatment) :
  (forall p, In p patients ->
             (hospital_matches p hospitals <= 1)%nat
             /\ (treatment_matches p treatments <= 1)%nat) ->
  map patient_of (merge patients hospitals treatments) = patients.
Proof.
  intros Huniq. rewrite merge_patient_rows.
  apply (flat_map_repeat_once
           (fun p => (Nat.max 1 (hospital_matches p hospitals)
                      * Nat.max 1 (treatment_matches p treatments))%nat)).
  intros p Hp. destruct (Huniq p Hp). nia.
Qed.

Lemma merge_without_fan_out_example :
  map patient_of
      (merge [Example.P1] [Example.H1] [Example.Flu_Antiviral])
  = [Example.P1].
Proof.
  apply merge_without_fan_out.
  intros p [<- | []]. split; cbn; lia.
Defined.

(** X5. With no patient the merge is empty, whatever the other tables
    hold; with no hospital and no treatment row it is the patients, one row
    each, every hospital and treatment field missing. *)
Theorem merge_of_empty_tables (patients : list Patient)
    (hospitals : list Hospital) (treatments : list Treatment) :
  merge [] hospitals treatments = []
  /\ map patient_of (merge patients [] []) = patients
  /\ Forall (fun r => Department r = None /\ Treatment_Type r = None
                      /\ Effectiveness_Rate r = None)
            (merge patients [] []).
Proof.
  split; [reflexivity |]. split.
  - rewrite merge_patient_rows.
    apply (flat_map_repeat_once
             (fun p => (Nat.max 1 (hospital_matches p [])
                        * Nat.max 1 (treatment_matches p []))%nat)).
    intros p _. reflexivity.
  - apply Forall_forall. intros r Hr.
    destruct (merge_rows patients [] [] r Hr) as (_ & Hh & Ht).
    destruct Hh as [(h & [] & _) | (_ & Hd)].
    destruct Ht as [(t & [] & _) | (_ & Htt & He)].
    auto.
Qed.

(** ** Ages *)

Lemma toordinal_today : toordinal today = 738886.
Proof. reflexivity. Qed.

Lemma leap_days_before_2024 (y : Z) :
  1678 <= y <= 2024 ->
  365 * (2024 - y)
  <= days_before_year 2024 - days_before_year y
  <= 365 * (2024 - y) + 84.
Proof.
  intros Hy. unfold days_before_year.
  change ((2024 - 1) / 4) with 505. change ((2024 - 1) / 100) with 20.
  change ((2024 - 1) / 400) with 5.
  Z.div_mod_to_equations. lia.
Qed.

(** The age of one row, as [enrich] derives it. *)
Lemma age_of_row_within_a_year (r : Row) (d : Timestamp) :
  DOB r = Some d ->
  Timestamp_ok d = true ->
  year d <= 2024 ->
  exists a, Age (enrich r) = Some a
            /\ 2024 - year d - 1 <= a <= 2024 - year d.
Proof.
  intros Hd Hok Hy.
  destruct (Timestamp_ok_bounds d Hok) as (Hyr & Hm & Hday).
  pose proof (day_of_year_bounds (year d) (month d) (day d) Hm Hday) as Hdoy.
  pose proof (leap_days_before_2024 (year d) ltac:(lia)) as Hleap.
  exists (days_between today d / 365). split.
  - unfold enrich; cbn [Age]. rewrite Hd. reflexivity.
  - unfold days_between. rewrite toordinal_today.
    unfold toordinal.
    assert (E2024 : days_before_year 2024 = 738885) by reflexivity.
    assert (Hleap1 : (if is_leap (year d) then 1 else 0) <= 1)
      by (destruct (is_leap (year d)); lia).
    set (days := 738886 - (days_before_year (year d)
                           + days_before_month (year d) (month d) + day d)).
    assert (Hlo : 365 * (2024 - year d - 1) <= days) by (unfold days; lia).
    assert (Hhi : days < 365 * (2024 - year d + 1)) by (unfold days; lia).
    split.
    + apply Z.div_le_lower_bound; lia.
    + assert (days / 365 < 2024 - year d + 1)
        by (apply Z.div_lt_upper_bound; lia).
      lia.
Qed.

(** X7. A patient born after 2023-01-01, on the reference date or after
    it included, has an age of zero or less and no age group. *)
Theorem infants_have_no_age_group (r : Row) (d : Timestamp) :
  DOB r = Some d ->
  Timestamp_ok d = true ->
  Timestamp_ltb (mkDate 2023 1 1) d = true ->
  (exists a, Age (enrich r) = Some a /\ a <= 0)
  /\ Age_Group (enrich r) = None.
Proof.
  intros Hd Hok Hlt.
  pose proof (toordinal_increasing (mkDate 2023 1 1) d eq_refl Hok Hlt) as Hinc.
  change (toordinal (mkDate 2023 1 1)) with 738521 in Hinc.
  assert (Hage : days_between today d / 365 <= 0).
  { unfold days_between. rewrite toordinal_today.
    assert (738886 - toordinal d < 365 * 1) by lia.
    assert ((738886 - toordinal d) / 365 < 1)
      by (apply Z.div_lt_upper_bound; lia).
    lia. }
  unfold enrich; cbn [Age Age_Group]. rewrite Hd. cbn [age_of option_map].
  split.
  - eexists. split; [reflexivity | exact Hage].
  - rewrite cut_bins.
    destruct (Z.leb_spec (days_between today d / 365) 0); [reflexivity | lia].
Qed.

Lemma infants_have_no_age_group_example :
  (exists a, Age (enrich (Example.dated_row (Some (mkDate 2023 6 15)) None None))
             = Some a /\ a <= 0)
  /\ Age_Group (enrich (Example.dated_row (Some (mkDate 2023 6 15)) None None))
     = None.
Proof.
  apply (infants_have_no_age_group _ (mkDate 2023 6 15)); reflexivity.
Defined.

(** The ages of two rows, as [enrich] derives them. *)
Lemma age_of_rows_decreases (r1 r2 : Row) (d1 d2 : Timestamp) :
  DOB r1 = Some d1 -> DOB r2 = Some d2 ->
  Timestamp_ok d1 = true -> Timestamp_ok d2 = true ->
  Timestamp_ltb d1 d2 = true ->
  exists a1 a2,
    Age (enrich r1) = Some a1 /\ Age (enrich r2) = Some a2
    /\ a2 <= a1
    /\ (searchsorted_left bins a2 <= searchsorted_left bins a1)%nat.
Proof.
  intros H1 H2 O1 O2 Hlt.
  pose proof (toordinal_increasing d1 d2 O1 O2 Hlt) as Hinc.
  exists (days_between today d1 / 365), (days_between today d2 / 365).
  unfold enrich; cbn [Age]. rewrite H1, H2.
  split; [reflexivity |]. split; [reflexivity |].
  assert (Hle : days_between today d2 / 365 <= days_between today d1 / 365).
  { apply Z.div_le_mono; [lia |]. unfold days_between. lia. }
  split; [exact Hle |]. apply searchsorted_bins_monotone. exact Hle.
Qed.

(** ** Length of stay and months *)

Lemma Timestamp_trichotomy (a b : Timestamp) :
  Timestamp_ltb a b = true \/ a = b \/ Timestamp_ltb b a = true.
Proof.
  destruct a as [ya ma da], b as [yb mb db].
  unfold Timestamp_ltb; cbn [year month day].
  destruct (Z.ltb_spec ya yb); [left; reflexivity |].
  destruct (Z.ltb_spec yb ya); [right; right; reflexivity |].
  assert (ya = yb) by lia. subst yb. rewrite Z.eqb_refl. cbn [orb andb].
  destruct (Z.ltb_spec ma mb); [left; reflexivity |].
  destruct (Z.ltb_spec mb ma); [right; right; reflexivity |].
  assert (ma = mb) by lia. subst mb. rewrite Z.eqb_refl. cbn [orb andb].
  destruct (Z.ltb_spec da db); [left; reflexivity |].
  destruct (Z.ltb_spec db da); [right; right; reflexivity |].
  right; left. f_equal. lia.
Qed.

(** The stay of one row, as [enrich] derives it. *)
Lemma stay_of_row_sign (r : Row) (a d : Timestamp) :
  Admission_Date r = Some a -> Discharge_Date r = Some d ->
  Timestamp_ok a = true -> Timestamp_ok d = true ->
  exists n, Length_of_Stay (enrich r) = Some n
            /\ (n = 0 <-> a = d)
            /\ (0 < n <-> Timestamp_ltb a d = true)
            /\ (n < 0 <-> Timestamp_ltb d a = true).
Proof.
  intros Ha Hd Oa Od. exists (toordinal d - toordinal a). split.
  - unfold enrich; cbn [Length_of_Stay]. rewrite Ha, Hd. reflexivity.
  - pose proof (toordinal_increasing a d Oa Od) as Had.
    pose proof (toordinal_increasing d a Od Oa) as Hda.
    destruct (Timestamp_trichotomy a d) as [Hlt | [-> | Hgt]].
    + specialize (Had Hlt).
      repeat split; intros; try lia; try assumption.
      * subst d. lia.
      * specialize (Hda H). lia.
    + repeat split; intros; try lia; try reflexivity.
      * specialize (Had H). lia.
      * specialize (Hda H). lia.
    + specialize (Hda Hgt).
      repeat split; intros; try lia; try assumption.
      * subst d. lia.
      * specialize (Had H). lia.
Qed.

Lemma ascending_Z_length (l : list Z) :
  forall lo hi : Z,
    ascending l -> (forall x, In x l -> lo <= x <= hi) ->
    Z.of_nat (List.length l) <= Z.max 0 (hi - lo + 1).
Proof.
  unfold ascending.
  induction l as [| a t IH]; intros lo hi Hs Hin; cbn [List.length].
  - lia.
  - inversion Hs as [| ? ? Ht Hall]; subst.
    rewrite Forall_forall in Hall.
    pose proof (Hin a (or_introl eq_refl)) as Ha.
    assert (Hlen : Z.of_nat (List.length t) <= Z.max 0 (hi - (a + 1) + 1)).
    { apply IH; [exact Ht |]. intros x Hx.
      pose proof (proj1 (key_lt_Z a x) (Hall x Hx)).
      pose proof (Hin x (or_intror Hx)). lia. }
    lia.
Qed.

Lemma month_of_enriched (rows : list Row) (e : Enriched) (k : Z) :
  forallb Csv.dates_ok rows = true ->
  In e (map enrich rows) ->
  Admission_Month e = Some k \/ Discharge_Month e = Some k ->
  1 <= k <= 12.
Proof.
  intros Hok Hin Hk. apply in_map_iff in Hin. destruct Hin as (r & <- & Hr).
  rewrite forallb_forall in Hok. specialize (Hok r Hr).
  unfold Csv.dates_ok in Hok.
  apply andb_prop in Hok. destruct Hok as [Hok H3].
  apply andb_prop in Hok. destruct Hok as [_ H2].
  unfold enrich in Hk; cbn [Admission_Month Discharge_Month] in Hk.
  destruct Hk as [Hk | Hk].
  - destruct (Admission_Date r) as [d |]; [| discriminate].
    injection Hk as <-. apply Timestamp_ok_bounds in H2. lia.
  - destruct (Discharge_Date r) as [d |]; [| discriminate].
    injection Hk as <-. apply Timestamp_ok_bounds in H3. lia.
Qed.

(** X10. Over rows with valid dates the admission trend and the discharge
    trend have month numbers from 1 to 12 as labels, hence twelve entries
    at most. *)
Theorem trends_have_month_labels (rows : list Row) :
  forallb Csv.dates_ok rows = true ->
  (forall k, In k (index (admission_trend (map enrich rows))) -> 1 <= k <= 12)
  /\ (forall k, In k (index (discharge_trend (map enrich rows))) ->
                1 <= k <= 12)
  /\ (List.length (admission_trend (map enrich rows)) <= 12)%nat
  /\ (List.length (discharge_trend (map enrich rows)) <= 12)%nat.
Proof.
  intros Hok.
  assert (Ha : forall k, In k (index (admission_trend (map enrich rows))) ->
                         1 <= k <= 12).
  { intros k Hk. unfold admission_trend in Hk. apply index_In in Hk.
    destruct Hk as (e & He & Hm).
    apply (month_of_enriched rows e k Hok He). left. exact Hm. }
  assert (Hd : forall k, In k (index (discharge_trend (map enrich rows))) ->
                         1 <= k <= 12).
  { intros k Hk. unfold discharge_trend in Hk. apply index_In in Hk.
    destruct Hk as (e & He & Hm).
    apply (month_of_enriched rows e k Hok He). right. exact Hm. }
  split; [exact Ha |]. split; [exact Hd |]. split.
  - rewrite <- (length_map fst). fold (index (admission_trend (map enrich rows))).
    pose proof (ascending_Z_length _ 1 12
                  (proj1 (index_ascending Admission_Month e_Patient_ID count
                            _ _ (Permutation_refl (map enrich rows)))) Ha).
    unfold admission_trend. lia.
  - rewrite <- (length_map fst). fold (index (discharge_trend (map enrich rows))).
    pose proof (ascending_Z_length _ 1 12
                  (proj1 (index_ascending Discharge_Month e_Patient_ID count
                            _ _ (Permutation_refl (map enrich rows)))) Hd).
    unfold discharge_trend. lia.
Qed.

Lemma trends_have_month_labels_example :
  (forall k, In k (index (admission_trend Example.df)) -> 1 <= k <= 12)
  /\ (forall k, In k (index (discharge_trend Example.df)) -> 1 <= k <= 12)
  /\ (List.length (admission_trend Example.df) <= 12)%nat
  /\ (List.length (discharge_trend Example.df) <= 12)%nat.
Proof.
  apply (trends_have_month_labels
           (fillna_ffill
              (merge [Example.P1] [Example.H1] [Example.Flu_Antiviral]))).
  reflexivity.
Defined.

(** ** Looking a group up *)

Section Lookup.
Context {K : Type} `{OrdLaws K} {R A V : Type}.
Variable key : R -> option K.
Variable val : R -> option A.
Variable f : list (option A) -> V.

Lemma loc_map_keys (F : K -> V) (ks : list K) (k : K) :
  loc k (map (fun k' => (k', F k')) ks)
  = if existsb (fun k' => match cmp k k' with Eq => true | _ => false end) ks
    then Some (F k) else None.
Proof.
  induction ks as [| k0 ks IH]; cbn; [reflexivity |].
  destruct (cmp k k0) eqn:E; cbn; try exact IH.
  apply cmp_eq in E. subst k0. reflexivity.
Qed.

Lemma existsb_keys (k : K) (rows : list R) :
  existsb (fun k' => match cmp k k' with Eq => true | _ => false end)
          (group_keys (map key rows))
  = existsb (fun r => key_is k (key r)) rows.
Proof.
  apply eq_true_iff_eq. rewrite !existsb_exists. split.
  - intros (k' & Hk' & E). destruct (cmp k k') eqn:C; try discriminate.
    apply cmp_eq in C. subst k'.
    apply group_keys_In, in_map_iff in Hk'. destruct Hk' as (r & Hr & Hin).
    exists r. split; [exact Hin |]. apply key_is_true. exact Hr.
  - intros (r & Hin & Hr). apply key_is_true in Hr.
    exists k. split; [| rewrite cmp_refl; reflexivity].
    apply group_keys_In, in_map_iff. exists r. auto.
Qed.

(** The entry of a group is the aggregate of the rows with its key. *)
Lemma loc_groupby_agg (rows : list R) (k : K) :
  loc k (groupby_agg key val f rows)
  = if existsb (fun r => key_is k (key r)) rows
    then Some (f (map val (filter (fun r => key_is k (key r)) rows)))
    else None.
Proof.
  unfold groupby_agg, groupby. rewrite map_map. cbn [fst snd].
  rewrite (loc_map_keys
             (fun k' => f (map val (filter (fun r => key_is k' (key r)) rows)))).
  rewrite existsb_keys. reflexivity.
Qed.

Lemma In_groupby_agg (rows : list R) (k : K) (v : V) :
  In (k, v) (groupby_agg key val f rows) ->
  v = f (map val (filter (fun r => key_is k (key r)) rows))
  /\ exists r, In r rows /\ key r = Some k.
Proof.
  unfold groupby_agg, groupby. rewrite map_map. cbn [fst snd].
  intros Hin. apply in_map_iff in Hin. destruct Hin as (k' & [= -> <-] & Hk).
  split; [reflexivity |].
  apply group_keys_In, in_map_iff in Hk. destruct Hk as (r & Hr & Hin).
  exists r. auto.
Qed.
End Lookup.

(** X11. Looking a key up in a grouped result gives the aggregate over
    exactly the rows that carry the key (the mean of their stays, of their
    readmitted flags, of their effectiveness rates, the count of their
    patient identifiers), and nothing for a key no row carries. *)
Theorem grouped_lookup (df : list Enriched) (m : Z) (s : string) :
  loc m (admission_trend df)
  = (if existsb (fun e => key_is m (Admission_Month e)) df
     then Some (count (map e_Patient_ID (rows_with Admission_Month m df)))
     else None)
  /\ loc m (discharge_trend df)
     = (if existsb (fun e => key_is m (Discharge_Month e)) df
        then Some (count (map e_Patient_ID (rows_with Discharge_Month m df)))
        else None)
  /\ loc s (avg_stay_condition df)
     = (if existsb (fun e => key_is s (e_Condition e)) df
        then Some (mean (map e_Length_of_Stay (rows_with e_Condition s df)))
        else None)
  /\ loc s (avg_stay_department df)
     = (if existsb (fun e => key_is s (e_Department e)) df
        then Some (mean (map e_Length_of_Stay (rows_with e_Department s df)))
        else None)
  /\ loc s (readmission_by_condition df)
     = (if existsb (fun e => key_is s (e_Condition e)) df
        then Some (mean (map e_Readmitted (rows_with e_Condition s df)))
        else None)
  /\ loc s (outcome_segment df)
     = (if existsb (fun e => key_is s (e_Outcome e)) df
        then Some (count (map e_Patient_ID (rows_with e_Outcome s df)))
        else None)
  /\ loc s (effectiveness_summary df)
     = (if existsb (fun e => key_is s (e_Treatment_Type e)) df
        then Some (mean (map e_Effectiveness_Rate
                             (rows_with e_Treatment_Type s df)))
        else None).
Proof.
  unfold admission_trend, discharge_trend, avg_stay_condition,
    avg_stay_department, readmission_by_condition, outcome_segment,
    effectiveness_summary, rows_with.
  repeat split; apply loc_groupby_agg.
Qed.

(** ** Counts add up *)

Section CountsAddUp.
Context {K : Type} `{OrdLaws K} {R : Type}.
Variable key : R -> option K.
Variable p : R -> bool.

Lemma ascending_NoDup (ks : list K) : ascending ks -> NoDup ks.
Proof.
  unfold ascending. induction 1 as [| a l Hs IH Hall]; constructor.
  - intros Hin. rewrite Forall_forall in Hall.
    apply (key_lt_irrefl a). apply Hall. exact Hin.
  - exact IH.
Qed.

Lemma list_sum_step (a : nat) (l : list nat) :
  list_sum (a :: l) = (a + list_sum l)%nat.
Proof. reflexivity. Qed.

Lemma list_sum_map_add {X} (g h : X -> nat) (l : list X) :
  list_sum (map (fun x => (g x + h x)%nat) l)
  = (list_sum (map g l) + list_sum (map h l))%nat.
Proof.
  unfold list_sum. induction l as [| x l IH]; cbn; [| rewrite IH]; lia.
Qed.

Lemma list_sum_map_zero {X} (g : X -> nat) (l : list X) :
  (forall x, In x l -> g x = 0%nat) -> list_sum (map g l) = 0%nat.
Proof.
  unfold list_sum.
  induction l as [| x l IH]; intros Hz; cbn; [reflexivity |].
  rewrite (Hz x (or_introl eq_refl)), IH; [reflexivity |].
  intros; apply Hz; right; assumption.
Qed.

(** A row counts for one key at most. *)
Lemma one_key_per_row (ks : list K) (r : R) :
  NoDup ks ->
  list_sum (map (fun k => if key_is k (key r) && p r then 1 else 0)%nat ks)
  = (if existsb (fun k => key_is k (key r)) ks && p r then 1 else 0)%nat.
Proof.
  induction 1 as [| k0 ks Hnot Hnd IH]; cbn [map existsb].
  - reflexivity.
  - rewrite list_sum_step.
    destruct (key_is k0 (key r)) eqn:E0; cbn [andb orb].
    + apply key_is_true in E0.
      rewrite list_sum_map_zero.
      * destruct (p r); reflexivity.
      * intros k Hk. destruct (key_is k (key r)) eqn:Ek; [| reflexivity].
        apply key_is_true in Ek. rewrite E0 in Ek. injection Ek as <-.
        contradiction.
    + rewrite IH. reflexivity.
Qed.

Lemma counts_add_up (ks : list K) (rows : list R) :
  NoDup ks ->
  list_sum
    (map (fun k => List.length
                     (filter (fun r => key_is k (key r) && p r) rows)) ks)
  = List.length
      (filter (fun r => existsb (fun k => key_is k (key r)) ks && p r) rows).
Proof.
  intros Hnd. induction rows as [| r rows IH].
  - cbn. apply list_sum_map_zero. reflexivity.
  - cbn [filter].
    rewrite (map_ext
               (fun k => List.length
                           (if key_is k (key r) && p r
                            then r :: filter (fun r0 => key_is k (key r0) && p r0) rows
                            else filter (fun r0 => key_is k (key r0) && p r0) rows))
               (fun k => ((if key_is k (key r) && p r then 1 else 0)
                          + List.length
                              (filter (fun r0 => key_is k (key r0) && p r0)
                                      rows))%nat)).
    2:{ intros k. destruct (key_is k (key r) && p r); reflexivity. }
    rewrite list_sum_map_add, IH, (one_key_per_row ks r Hnd).
    destruct (existsb (fun k => key_is k (key r)) ks && p r); reflexivity.
Qed.

Lemma existsb_group_keys (rows : list R) (r : R) :
  In r rows ->
  existsb (fun k => key_is k (key r)) (group_keys (map key rows))
  = match key r with Some _ => true | None => false end.
Proof.
  intros Hin. destruct (key r) as [k |] eqn:Ek.
  - apply existsb_exists. exists k. split.
    + apply group_keys_In, in_map_iff. exists r. auto.
    + apply key_is_true. reflexivity.
  - apply not_true_is_false. intros Hex. apply existsb_exists in Hex.
    destruct Hex as (k & _ & Hk). discriminate Hk.
Qed.
End CountsAddUp.

Lemma count_map_filter {R A} (val : R -> option A) (q : R -> bool)
    (rows : list R) :
  count (map val (filter q rows))
  = Z.of_nat
      (List.length
         (filter (fun r => q r && match val r with
                                  | Some _ => true
                                  | None => false
                                  end) rows)).
Proof.
  unfold count. f_equal.
  induction rows as [| r rows IH]; cbn; [reflexivity |].
  destruct (q r); cbn; [| exact IH].
  destruct (val r); cbn; rewrite IH; reflexivity.
Qed.

Lemma total_of_counts {K} (g : K -> nat) (ks : list K) :
  total (map (fun k => (k, Z.of_nat (g k))) ks)
  = Z.of_nat (list_sum (map g ks)).
Proof.
  unfold total. induction ks as [| k ks IH]; [reflexivity |].
  cbn [map snd fold_right]. rewrite IH, list_sum_step. lia.
Qed.

Lemma total_groupby_count {K} `{OrdLaws K} (key : Enriched -> option K)
    (df : list Enriched) :
  total (groupby_agg key e_Patient_ID count df)
  = Z.of_nat (List.length (counted_rows key df)).
Proof.
  unfold groupby_agg, groupby. rewrite map_map. cbn [fst snd].
  rewrite (map_ext _
             (fun k => (k, Z.of_nat
                             (List.length
                                (filter
                                   (fun e => key_is k (key e)
                                             && match e_Patient_ID e with
                                                | Some _ => true
                                                | None => false
                                                end) df)))))
    by (intros k; rewrite count_map_filter; reflexivity).
  rewrite (total_of_counts
             (fun k => List.length
                         (filter
                            (fun e => key_is k (key e)
                                      && match e_Patient_ID e with
                                         | Some _ => true
                                         | None => false
                                         end) df))).
  f_equal.
  rewrite (counts_add_up key
             (fun e => match e_Patient_ID e with
                       | Some _ => true
                       | None => false
                       end)).
  2:{ apply ascending_NoDup, group_keys_ascending. }
  unfold counted_rows. f_equal. apply filter_ext_in. intros e He.
  rewrite (existsb_group_keys key df e He).
  destruct (key e), (e_Patient_ID e); reflexivity.
Qed.

(** X12. The counts of a trend, and of the outcome segments, add up to the
    number of rows that carry both a key (a month, an outcome) and a patient
    identifier: each such row is counted once, in one group. *)
Theorem group_counts_add_up (df : list Enriched) :
  total (admission_trend df)
  = Z.of_nat (List.length (counted_rows Admission_Month df))
  /\ total (discharge_trend df)
     = Z.of_nat (List.length (counted_rows Discharge_Month df))
  /\ total (outcome_segment df)
     = Z.of_nat (List.length (counted_rows e_Outcome df)).
Proof.
  unfold admission_trend, discharge_trend, outcome_segment.
  repeat split; apply total_groupby_count.
Qed.

(** ** Means stay within the data *)

Lemma Qsum_bounds (lo hi : Q) (vs : list Q) :
  (forall v, In v vs -> lo <= v <= hi)%Q ->
  (inject_Z (Z.of_nat (List.length vs)) * lo <= Qsum vs
   /\ Qsum vs <= inject_Z (Z.of_nat (List.length vs)) * hi)%Q.
Proof.
  induction vs as [| v vs IH]; intros Hb.
  - cbn. split; rewrite Qmult_0_l; apply Qle_refl.
  - destruct (Hb v (or_introl eq_refl)) as [Hlo Hhi].
    destruct IH as [IHlo IHhi]; [intros; apply Hb; right; assumption |].
    cbn [List.length Qsum fold_right]. fold (Qsum vs).
    rewrite Nat2Z.inj_succ. unfold Z.succ. rewrite inject_Z_plus.
    split.
    + setoid_replace ((inject_Z (Z.of_nat (List.length vs)) + inject_Z 1) * lo)%Q
        with (lo + inject_Z (Z.of_nat (List.length vs)) * lo)%Q by ring.
      apply Qplus_le_compat; assumption.
    + setoid_replace ((inject_Z (Z.of_nat (List.length vs)) + inject_Z 1) * hi)%Q
        with (hi + inject_Z (Z.of_nat (List.length vs)) * hi)%Q by ring.
      apply Qplus_le_compat; assumption.
Qed.

Lemma mean_bounds (lo hi : Q) (col : list (option Q)) (m : Q) :
  (forall v, In (Some v) col -> lo <= v <= hi)%Q ->
  mean col = Some m -> (lo <= m <= hi)%Q.
Proof.
  intros Hb Hm. unfold mean in Hm.
  destruct (dropna col) as [| v0 vs0] eqn:E; [discriminate |].
  assert (Hm' : m = Qred (Qsum (v0 :: vs0)
                          / inject_Z (Z.of_nat (List.length (v0 :: vs0)))))
    by congruence.
  rewrite Hm'. clear Hm Hm'. rewrite <- E.
  assert (Hpos : (0 < inject_Z (Z.of_nat (List.length (dropna col))))%Q).
  { rewrite E. unfold Qlt, inject_Z; cbn [Qnum Qden List.length]. lia. }
  destruct (Qsum_bounds lo hi (dropna col)) as [Hlo Hhi].
  { intros v Hv. apply Hb. apply dropna_In. exact Hv. }
  split.
  - rewrite Qred_correct. apply Qle_shift_div_l; [exact Hpos |].
    rewrite Qmult_comm. exact Hlo.
  - rewrite Qred_correct. apply Qle_shift_div_r; [exact Hpos |].
    rewrite Qmult_comm. exact Hhi.
Qed.

Lemma grouped_mean_bounds {K} `{OrdLaws K} (key : Enriched -> option K)
    (val : Enriched -> option Q) (lo hi : Q) (df : list Enriched)
    (k : K) (m : Q) :
  (forall e v, In e df -> val e = Some v -> lo <= v <= hi)%Q ->
  In (k, Some m) (groupby_agg key val mean df) ->
  (lo <= m <= hi)%Q.
Proof.
  intros Hb Hin. apply In_groupby_agg in Hin. destruct Hin as [Hm _].
  apply (mean_bounds lo hi
           (map val (filter (fun r => key_is k (key r)) df)) m);
    [| symmetry; exact Hm].
  intros v Hv. apply in_map_iff in Hv. destruct Hv as (e & He & Hin).
  apply filter_In in Hin. apply (Hb e v); tauto.
Qed.

(** X13. Bounds on the data are bounds on the means: when every length of
    stay present in the table lies between [lo] and [hi], so does every
    average stay, by condition and by department (no negative average
    without a negative stay). *)
Theorem average_stay_within_stays (df : list Enriched) (lo hi : Z)
    (k : string) (m : Q) :
  (forall e n, In e df -> Length_of_Stay e = Some n -> lo <= n <= hi) ->
  In (k, Some m) (avg_stay_condition df)
  \/ In (k, Some m) (avg_stay_department df) ->
  (inject_Z lo <= m <= inject_Z hi)%Q.
Proof.
  intros Hb Hin.
  assert (Hq : forall e v, In e df -> e_Length_of_Stay e = Some v ->
                           (inject_Z lo <= v <= inject_Z hi)%Q).
  { intros e v He Hv. unfold e_Length_of_Stay in Hv.
    destruct (Length_of_Stay e) as [n |] eqn:En; [| discriminate].
    injection Hv as <-. destruct (Hb e n He En).
    rewrite <- !Zle_Qle. split; assumption. }
  destruct Hin as [Hin | Hin];
    eapply (grouped_mean_bounds _ e_Length_of_Stay); eassumption.
Qed.

Lemma average_stay_within_stays_example :
  (inject_Z 5 <= 5 <= inject_Z 5)%Q.
Proof.
  apply (average_stay_within_stays Example.df 5 5 "Flu"%string 5%Q).
  - intros e n [<- | []] Hn. vm_compute in Hn. injection Hn as <-. lia.
  - left. left. reflexivity.
Defined.

(** ** Readmission by condition *)

Lemma mean_of_flags (g : list Enriched) :
  (forall e, In e g ->
             Readmitted (row e) = Some 0 \/ Readmitted (row e) = Some 1) ->
  g <> [] ->
  exists q : Q,
    mean (map e_Readmitted g) = Some q
    /\ (q == inject_Z (Z.of_nat (List.length (filter is_readmitted g)))
             / inject_Z (Z.of_nat (List.length g)))%Q
    /\ (0 <= q <= 1)%Q.
Proof.
  intros Hbin Hne. unfold mean. rewrite (Qsum_flags g Hbin).
  set (vs := map (fun e => inject_Z (if is_readmitted e then 1 else 0)) g).
  assert (Hlen : List.length vs = List.length g) by apply length_map.
  assert (Hq : (Qred (Qsum vs / inject_Z (Z.of_nat (List.length vs)))
                == inject_Z (Z.of_nat (List.length (filter is_readmitted g)))
                   / inject_Z (Z.of_nat (List.length g)))%Q).
  { rewrite Qred_correct, Hlen. unfold vs. rewrite Qsum_indicator.
    reflexivity. }
  destruct vs as [| v vs'] eqn:Evs.
  - destruct g; [congruence | discriminate Hlen].
  - eexists; split; [reflexivity |]. split; [exact Hq |].
    rewrite Hq. apply fraction_in_unit_interval.
    + apply filter_length_le.
    + destruct g; [congruence | cbn; lia].
Qed.

(** X15. When every row carries a readmitted flag of 0 or 1, the entry of
    a condition in the readmission table is the share of readmitted rows
    among the rows of that condition, a value between 0 and 1. *)
Theorem readmission_by_condition_is_group_share (df : list Enriched)
    (c : string) :
  (forall e, In e df ->
             Readmitted (row e) = Some 0 \/ Readmitted (row e) = Some 1) ->
  (exists e, In e df /\ e_Condition e = Some c) ->
  exists q : Q,
    loc c (readmission_by_condition df) = Some (Some q)
    /\ (q == inject_Z (Z.of_nat (List.length
                                   (filter is_readmitted
                                           (rows_with e_Condition c df))))
             / inject_Z (Z.of_nat (List.length (rows_with e_Condition c df))))%Q
    /\ (0 <= q <= 1)%Q.
Proof.
  intros Hbin (e0 & Hin0 & Hc0).
  unfold readmission_by_condition. rewrite loc_groupby_agg.
  assert (Hmem : In e0 (rows_with e_Condition c df)).
  { apply filter_In. split; [exact Hin0 |]. apply key_is_true. exact Hc0. }
  assert (Hex : existsb (fun r => key_is c (e_Condition r)) df = true).
  { apply existsb_exists. exists e0. split; [exact Hin0 |].
    apply key_is_true. exact Hc0. }
  rewrite Hex.
  destruct (mean_of_flags (rows_with e_Condition c df)) as (q & Hq & Hfrac & Hr).
  - intros e He. apply filter_In in He. apply Hbin. tauto.
  - intros Hnil. rewrite Hnil in Hmem. exact Hmem.
  - exists q. unfold rows_with in Hq. rewrite Hq. auto.
Qed.

Lemma readmission_by_condition_example :
  exists q : Q,
    loc "Flu"%string
        (readmission_by_condition
           [enrich (Example.flagged_row "Flu" 1 None);
            enrich (Example.flagged_row "Cold" 0 None);
            enrich (Example.flagged_row "Flu" 0 None)])
    = Some (Some q)
    /\ (q == 1 # 2)%Q /\ (0 <= q <= 1)%Q.
Proof.
  destruct (readmission_by_condition_is_group_share
              [enrich (Example.flagged_row "Flu" 1 None);
               enrich (Example.flagged_row "Cold" 0 None);
               enrich (Example.flagged_row "Flu" 0 None)] "Flu"%string)
    as (q & Hq & Hfrac & Hrange).
  - intros e [<- | [<- | [<- | []]]]; [right | left | left]; reflexivity.
  - exists (enrich (Example.flagged_row "Flu" 1 None)).
    split; [left |]; reflexivity.
  - exists q. split; [exact Hq |]. split; [| exact Hrange].
    rewrite Hfrac. reflexivity.
Defined.

(** ** High-risk patients *)

Lemma high_risk_is_rows_with (df : list Enriched) :
  high_risk_patients df = rows_with e_Outcome "Deteriorated"%string df.
Proof.
  unfold high_risk_patients, rows_with. apply filter_ext. intros e.
  apply eq_true_iff_eq. rewrite key_eqb_eq, key_is_true. reflexivity.
Qed.

(** X16. The high-risk view holds exactly the rows of the table whose
    outcome is "Deteriorated" (a row with a missing or any other outcome
    is never in it), and the outcome segment shows for "Deteriorated" the
    number of its rows that carry a patient identifier, or nothing when
    the view is empty. *)
Theorem high_risk_patients_are_the_deteriorated (df : list Enriched) :
  (forall e, In e (high_risk_patients df)
             <-> In e df /\ e_Outcome e = Some "Deteriorated"%string)
  /\ loc "Deteriorated"%string (outcome_segment df)
     = match high_risk_patients df with
       | [] => None
       | _ :: _ => Some (count (map e_Patient_ID (high_risk_patients df)))
       end.
Proof.
  split.
  - intros e. unfold high_risk_patients. rewrite filter_In, key_eqb_eq.
    reflexivity.
  - unfold outcome_segment. rewrite loc_groupby_agg, high_risk_is_rows_with.
    unfold rows_with.
    destruct (filter (fun e => key_is "Deteriorated"%string (e_Outcome e)) df)
      as [| e0 g] eqn:E.
    + replace (existsb (fun r => key_is "Deteriorated"%string (e_Outcome r)) df)
        with false; [reflexivity |].
      symmetry. apply not_true_is_false. intros Hex.
      apply existsb_exists in Hex. destruct Hex as (e & He & Hk).
      assert (Hin : In e (filter (fun e => key_is "Deteriorated"%string
                                              (e_Outcome e)) df))
        by (apply filter_In; auto).
      rewrite E in Hin. exact Hin.
    + replace (existsb (fun r => key_is "Deteriorated"%string (e_Outcome r)) df)
        with true; [reflexivity |].
      symmetry. apply existsb_exists. exists e0.
      assert (Hin : In e0 (filter (fun e => key_is "Deteriorated"%string
                                               (e_Outcome e)) df))
        by (rewrite E; left; reflexivity).
      apply filter_In in Hin. exact Hin.
Qed.

(** ** Interventions, when they are computed *)

Lemma mapM_Raise {A B} (f : A -> result B) (l : list A) (e : exn) :
  mapM f l = Raise e -> exists x, In x l /\ f x = Raise e.
Proof.
  destruct e. induction l as [| x l IH]; cbn; [discriminate |].
  destruct (f x) as [y | []] eqn:Ex; cbn.
  - destruct (mapM f l) as [ys | []]; cbn; [discriminate |].
    intros _. destruct (IH eq_refl) as (x' & Hin & Hx').
    exists x'. auto.
  - intros _. exists x. auto.
Qed.

Lemma mapM_Ok {A B} (f : A -> result B) (l : list A) (ys : list B) :
  mapM f l = Ok ys -> Forall2 (fun x y => f x = Ok y) l ys.
Proof.
  revert ys. induction l as [| x l IH]; cbn; intros ys.
  - intros [= <-]. constructor.
  - destruct (f x) as [y | e0] eqn:Ex; cbn; [| discriminate].
    destruct (mapM f l) as [ys' | e1]; cbn; [| discriminate].
    intros [= <-]. constructor; [exact Ex | apply IH; reflexivity].
Qed.

Lemma most_frequent_Ok (col : list (option string)) (t : string) :
  most_frequent col = Ok t -> In t (dropna col).
Proof.
  intros Hok. destruct (dropna col) as [| x xs] eqn:E.
  - rewrite (most_frequent_raises col E) in Hok. discriminate.
  - destruct (most_frequent_spec col) as (t' & pre & post & Ht & Hsplit & _).
    { rewrite E. discriminate. }
    rewrite Ht in Hok. injection Hok as <-.
    rewrite <- E, Hsplit. apply in_elt.
Qed.

(** X17. The interventions are either an index error or a table.  They
    are the index error exactly when some condition with a readmitted row
    has no treatment type on any of its readmitted rows.  Otherwise the
    table has one entry per condition with a readmitted row, in ascending
    order of the condition, each with a treatment type found on the
    readmitted rows of that condition; with no readmitted row at all it
    is the empty table. *)
Theorem interventions_outcomes (df : list Enriched) :
  (interventions df = Raise IndexError
   <-> exists c, (exists e, In e df /\ is_readmitted e = true
                            /\ e_Condition e = Some c)
                 /\ readmitted_treatments c df = [])
  /\ (forall res, interventions df = Ok res ->
        index res = group_keys (map e_Condition (filter is_readmitted df))
        /\ forall c t, In (c, t) res -> In t (readmitted_treatments c df))
  /\ (filter is_readmitted df = [] -> interventions df = Ok []).
Proof.
  split; [split |].
  - intros Hraise.
    unfold interventions, groupby_agg_raising, groupby in Hraise.
    apply mapM_Raise in Hraise. destruct Hraise as ([c g] & Hin & Hf).
    apply in_map_iff in Hin. destruct Hin as (c' & [= -> <-] & Hkey).
    cbn [fst snd] in Hf.
    exists c. split; [apply readmitted_condition_is_key; exact Hkey |].
    unfold readmitted_treatments.
    destruct (dropna (map e_Treatment_Type
                          (filter (fun e => key_is c (e_Condition e))
                                  (filter is_readmitted df)))) eqn:E;
      [reflexivity |].
    destruct (most_frequent_spec
                (map e_Treatment_Type
                     (filter (fun e => key_is c (e_Condition e))
                             (filter is_readmitted df))))
      as (t & _ & _ & Ht & _); [rewrite E; discriminate |].
    rewrite Ht in Hf. discriminate.
  - intros (c & Hc & Hnil). exact (interventions_raise df c Hc Hnil).
  - split.
    + intros res Hres.
      unfold interventions, groupby_agg_raising, groupby in Hres.
      apply mapM_Ok in Hres.
      set (keys := group_keys (map e_Condition (filter is_readmitted df))) in *.
      clearbody keys. revert res Hres.
      induction keys as [| k keys IH]; intros res Hres; cbn [map] in Hres.
      * inversion Hres; subst. split; [reflexivity | intros ? ? []].
      * inversion Hres as [| ? y ? ys Hy Hrest]; subst.
        destruct (IH ys Hrest) as (Hidx & Hval). cbn [fst snd] in Hy.
        destruct (most_frequent
                    (map e_Treatment_Type
                         (filter (fun r => key_is k (e_Condition r))
                                 (filter is_readmitted df)))) as [t |] eqn:Et;
          cbn in Hy; [| discriminate].
        injection Hy as <-. split.
        -- cbn. rewrite <- Hidx. reflexivity.
        -- intros c t' [[= <- <-] | Hin]; [| apply Hval; exact Hin].
           apply most_frequent_Ok in Et. exact Et.
    + intros Hnil. unfold interventions. rewrite Hnil. reflexivity.
Qed.

(** ** The pie charts *)

Lemma unique_NoDup (xs : list string) : NoDup (unique xs).
Proof.
  induction xs as [| x r IH]; cbn; constructor.
  - intros Hin. apply filter_In in Hin. destruct Hin as [_ Hne].
    rewrite String.eqb_refl in Hne. discriminate.
  - apply NoDup_filter. exact IH.
Qed.

Lemma occurrences_as_group (v : string) (xs : list string) :
  occurrences v xs
  = List.length (filter (fun x => key_is v (Some x) && true) xs).
Proof.
  unfold occurrences. f_equal. apply filter_ext. intros x.
  rewrite andb_true_r. apply eq_true_iff_eq.
  rewrite String.eqb_eq, key_is_true. split; congruence.
Qed.

Lemma filter_all_true {X} (l : list X) : filter (fun _ => true) l = l.
Proof. induction l as [| x l IH]; cbn; [| rewrite IH]; reflexivity. Qed.

(** The occurrences of the values of [ks], a list without repetition that
    holds every value of [xs], add up to the length of [xs]. *)
Lemma occurrences_add_up (ks xs : list string) :
  NoDup ks -> (forall x, In x xs -> In x ks) ->
  list_sum (map (fun v => occurrences v xs) ks) = List.length xs.
Proof.
  intros Hnd Hall.
  rewrite (map_ext _ (fun v => List.length
                                 (filter (fun x => key_is v (Some x) && true)
                                         xs)))
    by (intros; apply occurrences_as_group).
  rewrite (counts_add_up (@Some string) (fun _ => true) ks xs Hnd).
  rewrite (filter_ext_in _ (fun _ => true)).
  - rewrite filter_all_true. reflexivity.
  - intros x Hx. rewrite andb_true_r. apply existsb_exists.
    exists x. split; [apply Hall, Hx | apply key_is_true; reflexivity].
Qed.

Lemma total_nat_list_sum (g : string -> nat) (ks : list string) :
  total_nat (map (fun v => (v, g v)) ks) = list_sum (map g ks).
Proof.
  unfold total_nat. rewrite map_map. reflexivity.
Qed.

Lemma total_nat_permutation (l l' : list (string * nat)) :
  Permutation l l' -> total_nat l = total_nat l'.
Proof.
  unfold total_nat. induction 1; cbn; lia.
Qed.

(** X18. The gender pie is drawn from one entry per gender found in the
    table, each with the number of rows of that gender (at least one), in
    order of non-increasing count; the counts add up to the number of rows
    whose gender is present. *)
Theorem gender_distribution_counts (df : list Enriched) :
  (forall g n, In (g, n) (gender_distribution df) ->
               n = occurrences g (dropna (map e_Gender df)) /\ (1 <= n)%nat)
  /\ (forall g, In g (index (gender_distribution df))
                <-> exists e, In e df /\ e_Gender e = Some g)
  /\ NoDup (index (gender_distribution df))
  /\ StronglySorted (fun a b => (snd b <= snd a)%nat) (gender_distribution df)
  /\ total_nat (gender_distribution df)
     = List.length (dropna (map e_Gender df)).
Proof.
  unfold gender_distribution, value_counts.
  set (xs := dropna (map e_Gender df)).
  set (l := map (fun v => (v, occurrences v xs)) (unique xs)).
  pose proof (sort_desc_permutation l) as Hperm.
  assert (Hidx : Permutation (index (sort_desc l)) (unique xs)).
  { unfold index. rewrite (Permutation_map fst Hperm).
    unfold l. rewrite map_map. cbn [fst]. rewrite map_id.
    apply Permutation_refl. }
  split; [| split; [| split; [| split]]].
  - intros g n Hin. apply (Permutation_in _ Hperm) in Hin.
    apply in_map_iff in Hin. destruct Hin as (v & [= -> <-] & Hv).
    split; [reflexivity |].
    apply (proj1 (unique_In _ _)) in Hv. unfold occurrences.
    assert (Hf : In g (filter (String.eqb g) xs))
      by (apply filter_In; split; [exact Hv | apply String.eqb_refl]).
    destruct (filter (String.eqb g) xs); [destruct Hf | cbn; lia].
  - intros g. split.
    + intros Hin. apply (Permutation_in _ Hidx) in Hin.
      apply (proj1 (unique_In _ _)) in Hin.
      apply (proj1 (dropna_In _ _)) in Hin.
      apply in_map_iff in Hin.
      destruct Hin as (e & He & Hin). exists e. auto.
    + intros (e & Hin & He).
      apply (Permutation_in _ (Permutation_sym Hidx)).
      apply (proj2 (unique_In _ _)). apply (proj2 (dropna_In _ _)).
      apply in_map_iff. exists e. auto.
  - apply (Permutation_NoDup (Permutation_sym Hidx)). apply unique_NoDup.
  - apply sort_desc_sorted.
  - rewrite (total_nat_permutation _ _ Hperm). unfold l.
    rewrite total_nat_list_sum.
    apply occurrences_add_up; [apply unique_NoDup |].
    intros x Hx. apply (proj2 (unique_In _ _)). exact Hx.
Qed.



(** ** The top conditions *)

Lemma rate_gtb_true (a b : option Q) : rate_gtb a b = true -> rate_ge a b.
Proof.
  destruct a as [x |], b as [y |]; cbn; try discriminate; try exact (fun _ => I).
  intros Hgt. apply negb_true_iff in Hgt.
  destruct (Qlt_le_dec y x) as [Hlt | Hle].
  - apply Qlt_le_weak. exact Hlt.
  - apply Qle_bool_iff in Hle. congruence.
Qed.

Lemma rate_gtb_false (a b : option Q) : rate_gtb a b = false -> rate_ge b a.
Proof.
  destruct a as [x |], b as [y |]; cbn; try discriminate; try exact (fun _ => I).
  intros Hgt. apply negb_false_iff in Hgt. apply Qle_bool_iff. exact Hgt.
Qed.

Lemma rate_ge_trans (a b c : option Q) :
  rate_ge a b -> rate_ge b c -> rate_ge a c.
Proof.
  destruct a as [x |], b as [y |], c as [z |]; cbn; try tauto.
  intros Hxy Hyz. eapply Qle_trans; eassumption.
Qed.

Section SortValues.
Context {K : Type}.

Lemma insert_rate_permutation (e : K * option Q) (l : list (K * option Q)) :
  Permutation (insert_rate e l) (e :: l).
Proof.
  induction l as [| e' r IH]; cbn [insert_rate].
  - apply Permutation_refl.
  - destruct (rate_gtb (snd e') (snd e)).
    + eapply perm_trans; [apply perm_skip, IH | apply perm_swap].
    + apply Permutation_refl.
Qed.

Lemma sort_values_desc_permutation (s : list (K * option Q)) :
  Permutation (sort_values_desc s) s.
Proof.
  induction s as [| e s IH]; cbn [sort_values_desc fold_right].
  - apply perm_nil.
  - eapply perm_trans; [apply insert_rate_permutation |].
    apply perm_skip, IH.
Qed.

Lemma insert_rate_sorted (e : K * option Q) (l : list (K * option Q)) :
  StronglySorted (fun a b => rate_ge (snd a) (snd b)) l ->
  StronglySorted (fun a b => rate_ge (snd a) (snd b)) (insert_rate e l).
Proof.
  induction l as [| e' r IH]; intros Hs; cbn [insert_rate].
  - constructor; constructor.
  - inversion Hs as [| ? ? Hr Hall]; subst.
    destruct (rate_gtb (snd e') (snd e)) eqn:E.
    + constructor; [apply IH, Hr |].
      apply Forall_forall. intros x Hx.
      apply (Permutation_in _ (insert_rate_permutation e r)) in Hx.
      destruct Hx as [<- | Hx]; [apply rate_gtb_true, E |].
      rewrite Forall_forall in Hall. apply Hall, Hx.
    + constructor; [exact Hs |].
      constructor; [apply rate_gtb_false, E |].
      eapply Forall_impl; [| exact Hall]. cbn. intros x Hx.
      eapply rate_ge_trans; [apply rate_gtb_false, E | exact Hx].
Qed.

Lemma sort_values_desc_sorted (s : list (K * option Q)) :
  StronglySorted (fun a b => rate_ge (snd a) (snd b)) (sort_values_desc s).
Proof.
  induction s as [| e s IH]; cbn [sort_values_desc fold_right].
  - constructor.
  - apply insert_rate_sorted, IH.
Qed.

Lemma sorted_front_dominates {X} (R : X -> X -> Prop) (l1 l2 : list X) :
  StronglySorted R (l1 ++ l2) ->
  StronglySorted R l1
  /\ forall x y, In x l1 -> In y l2 -> R x y.
Proof.
  induction l1 as [| a l1 IH]; cbn; intros Hs.
  - split; [constructor | intros ? ? []].
  - inversion Hs as [| ? ? Hr Hall]; subst.
    destruct (IH Hr) as (Hs1 & Hdom). rewrite Forall_forall in Hall.
    split.
    + constructor; [exact Hs1 |]. apply Forall_forall. intros x Hx.
      apply Hall, in_or_app. left. exact Hx.
    + intros x y [<- | Hx] Hy.
      * apply Hall, in_or_app. right. exact Hy.
      * apply Hdom; assumption.
Qed.
End SortValues.

(** X20. The table of top conditions has five entries at most (all of
    them when there are five conditions or fewer), each an entry of the
    readmission table, in order of non-increasing rate with NaN last; an
    entry of the readmission table left out has a rate no greater than any
    rate shown. *)
Theorem top_conditions_are_the_largest (df : list Enriched) :
  List.length (top_conditions df)
  = Nat.min 5 (List.length (readmission_by_condition df))
  /\ (forall x, In x (top_conditions df) ->
                In x (readmission_by_condition df))
  /\ StronglySorted (fun a b => rate_ge (snd a) (snd b)) (top_conditions df)
  /\ (forall x y, In x (top_conditions df) ->
                  In y (readmission_by_condition df) ->
                  ~ In y (top_conditions df) ->
                  rate_ge (snd x) (snd y)).
Proof.
  unfold top_conditions, head.
  set (s := readmission_by_condition df).
  pose proof (sort_values_desc_permutation s) as Hperm.
  pose proof (sort_values_desc_sorted s) as Hsorted.
  rewrite <- (firstn_skipn 5 (sort_values_desc s)) in Hsorted.
  apply sorted_front_dominates in Hsorted. destruct Hsorted as (Hs1 & Hdom).
  split; [| split; [| split]].
  - rewrite length_firstn, (Permutation_length Hperm). reflexivity.
  - intros x Hx. apply (Permutation_in _ Hperm).
    rewrite <- (firstn_skipn 5 (sort_values_desc s)).
    apply in_or_app. left. exact Hx.
  - exact Hs1.
  - intros x y Hx Hy Hnot. apply Hdom; [exact Hx |].
    apply (Permutation_in _ (Permutation_sym Hperm)) in Hy.
    rewrite <- (firstn_skipn 5 (sort_values_desc s)) in Hy.
    apply in_app_or in Hy. destruct Hy as [Hy | Hy]; [contradiction | exact Hy].
Qed.

Example top_conditions_of_three :
  map fst
      (top_conditions
         [enrich (Example.flagged_row "Asthma" 0 None);
          enrich (Example.flagged_row "Flu" 1 None);
          enrich (Example.flagged_row "Cold" 1 None);
          enrich (Example.flagged_row "Cold" 0 None)])
  = ["Flu"; "Cold"; "Asthma"]%string.
Proof. reflexivity. Qed.

(* ================================================================== *)
(** * The run of the script *)

Import Script.


(** A run that reaches the aggregates had patients and date differences
    that could be held, and its table is [analysis_table]. *)
Lemma run_inr (patients : list Patient) (hospitals : list Hospital)
    (treatments : list Treatment) (df : list Enriched) :
  run patients hospitals treatments = inr df ->
  patients <> []
  /\ forallb age_fits (fillna_ffill (merge patients hospitals treatments))
     = true
  /\ forallb stay_fits (fillna_ffill (merge patients hospitals treatments))
     = true
  /\ df = analysis_table patients hospitals treatments.
Proof.
  unfold run, Age_column, Length_of_Stay_column, analysis_table.
  destruct patients as [| p ps]; [discriminate |].
  set (df0 := fillna_ffill (merge (p :: ps) hospitals treatments)).
  destruct (forallb age_fits df0); [| discriminate].
  destruct (forallb stay_fits df0); [| discriminate].
  intros [= <-]. repeat split. discriminate.
Qed.


Lemma run_row (patients : list Patient) (hospitals : list Hospital)
    (treatments : list Treatment) (df : list Enriched) (e : Enriched) :
  run patients hospitals treatments = inr df -> In e df ->
  e = enrich (row e) /\ age_fits (row e) = true /\ stay_fits (row e) = true.
Proof.
  intros Hrun Hin. destruct (run_inr _ _ _ _ Hrun) as (_ & Ha & Hs & ->).
  unfold analysis_table in Hin. apply in_map_iff in Hin.
  destruct Hin as (r & <- & Hr).
  rewrite forallb_forall in Ha, Hs. auto.
Qed.

Lemma run_nonempty (patients : list Patient) (hospitals : list Hospital)
    (treatments : list Treatment) (df : list Enriched) :
  run patients hospitals treatments = inr df -> df <> [].
Proof.
  intros Hrun. destruct (run_inr _ _ _ _ Hrun) as (Hne & _ & _ & ->).
  pose proof (analysis_table_length patients hospitals treatments) as [_ Hlen].
  intros Hnil. rewrite Hnil in Hlen. cbn in Hlen.
  destruct patients; [congruence | cbn in Hlen; lia].
Qed.

(** ** Length of stay *)




(** ** Readmission rate *)

(** C3, as stated, fails: the mean skips a missing flag and adds up
    whatever the flags are.  With the flag of the first patient missing and
    the second readmitted, one row of two is readmitted and the rate is 1,
    not 1/2; with a flag of 2 the rate is 2, outside 0 to 1. *)
Lemma readmission_rate_is_not_the_share_of_all_rows :
  (exists df,
     run [flagged None; flagged (Some 1)] [] [] = inr df
     /\ List.length df = 2%nat
     /\ List.length (filter is_readmitted df) = 1%nat
     /\ readmission_rate df = Some 1%Q
     /\ ~ (1 == 1 # 2)%Q)
  /\ exists df,
       run [flagged (Some 2)] [] [] = inr df
       /\ readmission_rate df = Some 2%Q
       /\ ~ (2 <= 1)%Q.
Proof.
  split.
  - eexists. split; [reflexivity |]. repeat split. discriminate.
  - eexists. split; [reflexivity |]. split; [reflexivity |].
    intros H. apply (H eq_refl).
Qed.

(** C3, amended. When the script reaches the aggregates and every row
    carries a readmitted flag of 0 or 1, the readmission rate is the number
    of rows flagged 1 divided by the number of rows, a value between 0 and
    1.  The table is then never empty: on a patient table without rows the
    script raises AttributeError at the age computation, before any rate is
    computed, and returns neither NaN nor zero. *)
Theorem readmission_rate_is_fraction (patients : list Patient)
    (hospitals : list Hospital) (treatments : list Treatment)
    (df : list Enriched) :
  run patients hospitals treatments = inr df ->
  (forall e, In e df ->
             Readmitted (row e) = Some 0 \/ Readmitted (row e) = Some 1) ->
  (exists q : Q,
     readmission_rate df = Some q
     /\ (q == inject_Z (Z.of_nat (List.length (filter is_readmitted df)))
              / inject_Z (Z.of_nat (List.length df)))%Q
     /\ (0 <= q <= 1)%Q)
  /\ df <> []
  /\ run [] hospitals treatments = inl AttributeError.
Proof.
  intros Hrun Hbin.
  pose proof (run_nonempty _ _ _ _ Hrun) as Hne.
  split; [| split; [exact Hne | reflexivity]].
  unfold readmission_rate. apply mean_of_flags; assumption.
Qed.

Lemma readmission_rate_one_of_two :
  exists q : Q,
    readmission_rate
      (analysis_table [flagged (Some 1); flagged (Some 0)] [] []) = Some q
    /\ (q == 1 # 2)%Q /\ (0 <= q <= 1)%Q.
Proof.
  destruct (readmission_rate_is_fraction
              [flagged (Some 1); flagged (Some 0)] [] []
              (analysis_table [flagged (Some 1); flagged (Some 0)] [] []))
    as ((q & Hq & Hfrac & Hrange) & _).
  - reflexivity.
  - intros e [<- | [<- | []]]; [right | left]; reflexivity.
  - exists q. split; [exact Hq |]. split; [| exact Hrange].
    rewrite Hfrac. reflexivity.
Defined.

(** ** The most frequent treatment type *)

Import Ties.

Lemma interventions_by_sort_desc (df : list Enriched) :
  interventions_by sort_desc df = interventions df.
Proof. reflexivity. Qed.

Lemma sort_desc_orders_by_count : orders_by_count sort_desc.
Proof.
  intros l. split; [apply sort_desc_permutation | apply sort_desc_sorted].
Qed.

Lemma insert_desc_last_permutation (e : string * nat)
    (l : list (string * nat)) :
  Permutation (insert_desc_last e l) (e :: l).
Proof.
  induction l as [| e' r IH]; cbn [insert_desc_last].
  - apply Permutation_refl.
  - destruct (Nat.leb (snd e) (snd e')).
    + eapply perm_trans; [apply perm_skip, IH | apply perm_swap].
    + apply Permutation_refl.
Qed.

Lemma insert_desc_last_sorted (e : string * nat) (l : list (string * nat)) :
  StronglySorted (fun a b => (snd b <= snd a)%nat) l ->
  StronglySorted (fun a b => (snd b <= snd a)%nat) (insert_desc_last e l).
Proof.
  induction l as [| e' r IH]; intros Hs; cbn [insert_desc_last].
  - constructor; constructor.
  - inversion Hs as [| ? ? Hr Hall]; subst.
    destruct (Nat.leb_spec (snd e) (snd e')) as [Hle | Hgt].
    + constructor; [apply IH, Hr |].
      apply Forall_forall. intros x Hx.
      apply (Permutation_in _ (insert_desc_last_permutation e r)) in Hx.
      destruct Hx as [<- | Hx]; [exact Hle |].
      rewrite Forall_forall in Hall. apply Hall, Hx.
    + constructor; [exact Hs |].
      constructor; [lia |].
      eapply Forall_impl; [| exact Hall]. cbn. intros x Hx. lia.
Qed.

Lemma sort_desc_last_orders_by_count : orders_by_count sort_desc_last.
Proof.
  intros l. split.
  - induction l as [| e l IH]; cbn [sort_desc_last fold_right].
    + apply perm_nil.
    + eapply perm_trans; [apply insert_desc_last_permutation |].
      apply perm_skip, IH.
  - induction l as [| e l IH]; cbn [sort_desc_last fold_right].
    + constructor.
    + apply insert_desc_last_sorted, IH.
Qed.

(** The order by count does not decide a tie: on the types A, B, C, C, D,
    D one sort by count gives C, another D. *)
Lemma ties_are_broken_by_the_sort :
  interventions_by sort_desc (treated ["A"; "B"; "C"; "C"; "D"; "D"]%string)
  = Ok [("Flu", "C")]%string
  /\ interventions_by sort_desc_last
       (treated ["A"; "B"; "C"; "C"; "D"; "D"]%string)
     = Ok [("Flu", "D")]%string.
Proof. split; reflexivity. Qed.

(** The head of a list ordered by count is an entry of largest count. *)
Lemma sorted_head (sort : list (string * nat) -> list (string * nat))
    (l : list (string * nat)) :
  orders_by_count sort -> l <> [] ->
  exists e rest,
    sort l = e :: rest /\ In e l
    /\ forall x, In x l -> (snd x <= snd e)%nat.
Proof.
  intros Hsort Hne. destruct (Hsort l) as [Hperm Hsorted].
  destruct (sort l) as [| e rest] eqn:E.
  - apply Permutation_nil in Hperm. congruence.
  - exists e, rest. split; [reflexivity |]. split.
    + apply (Permutation_in _ Hperm). left. reflexivity.
    + inversion Hsorted as [| ? ? _ Hall]; subst.
      rewrite Forall_forall in Hall.
      intros x Hx. apply (Permutation_in _ (Permutation_sym Hperm)) in Hx.
      destruct Hx as [<- | Hx]; [apply Nat.le_refl | apply Hall, Hx].
Qed.

Lemma most_frequent_by_spec
    (sort : list (string * nat) -> list (string * nat))
    (col : list (option string)) :
  orders_by_count sort -> dropna col <> [] ->
  exists t,
    most_frequent_by sort col = Ok t
    /\ In t (dropna col)
    /\ forall t', In t' (dropna col) ->
         (occurrences t' (dropna col) <= occurrences t (dropna col))%nat.
Proof.
  intros Hsort Hne. unfold most_frequent_by, value_counts_by.
  set (xs := dropna col) in *.
  set (l := map (fun v => (v, occurrences v xs)) (unique xs)).
  assert (Hl : l <> []).
  { unfold l. destruct xs as [| x r]; [congruence | discriminate]. }
  destruct (sorted_head sort l Hsort Hl) as ([t n] & rest & Hs & Hin & Hmax).
  unfold l in Hin. apply in_map_iff in Hin.
  destruct Hin as (t0 & [= <- <-] & Ht0).
  exists t0. rewrite Hs. cbn [index0].
  split; [reflexivity |]. split; [apply (proj1 (unique_In _ _) Ht0) |].
  intros t' Ht'.
  apply (Hmax (t', occurrences t' xs)). unfold l.
  apply (in_map (fun v => (v, occurrences v xs))).
  apply (proj2 (unique_In _ _) Ht').
Qed.

(** C4, amended. Whatever order the sort of the counts leaves equal
    counts in: when every condition with a readmitted row has a readmitted
    row with a treatment type, the interventions map each such condition
    to a treatment type of its readmitted rows whose count among them is
    the largest.  Of types tied at the largest count the one the sort puts
    first is taken, the same for the same table and the same sort. *)
Theorem interventions_most_frequent
    (sort : list (string * nat) -> list (string * nat))
    (df : list Enriched) (c : string) :
  orders_by_count sort ->
  (forall c', (exists e, In e df /\ is_readmitted e = true
                         /\ e_Condition e = Some c') ->
              readmitted_treatments c' df <> []) ->
  (exists e, In e df /\ is_readmitted e = true /\ e_Condition e = Some c) ->
  exists res t,
    interventions_by sort df = Ok res
    /\ loc c res = Some t
    /\ In t (readmitted_treatments c df)
    /\ (forall t', In t' (readmitted_treatments c df) ->
          (occurrences t' (readmitted_treatments c df)
           <= occurrences t (readmitted_treatments c df))%nat).
Proof.
  intros Hsort Hall Hc.
  unfold interventions_by, groupby_agg_raising, groupby.
  set (rows := filter is_readmitted df).
  set (group := fun k : string =>
                  filter (fun r => key_is k (e_Condition r)) rows).
  destruct (mapM_groups e_Treatment_Type (most_frequent_by sort) group
              (group_keys (map e_Condition rows)))
    as (res & Hres & Hloc).
  { intros k Hk. apply readmitted_condition_is_key in Hk.
    destruct (most_frequent_by_spec sort (map e_Treatment_Type (group k))
                Hsort (Hall k Hk)) as (t & Ht & _).
    exists t. exact Ht. }
  destruct (most_frequent_by_spec sort (map e_Treatment_Type (group c))
              Hsort (Hall c Hc)) as (t & Ht & Hin & Hmax).
  exists res, t.
  split; [exact Hres |]. split.
  - apply Hloc; [| exact Ht]. apply readmitted_condition_is_key. exact Hc.
  - auto.
Qed.

Lemma interventions_on_a_tie :
  exists res t,
    interventions_by sort_desc_last
      (treated ["A"; "B"; "C"; "C"; "D"; "D"]%string) = Ok res
    /\ loc "Flu"%string res = Some t
    /\ In t (readmitted_treatments "Flu"
               (treated ["A"; "B"; "C"; "C"; "D"; "D"]%string))
    /\ (forall t',
          In t' (readmitted_treatments "Flu"
                   (treated ["A"; "B"; "C"; "C"; "D"; "D"]%string)) ->
          (occurrences t'
             (readmitted_treatments "Flu"
                (treated ["A"; "B"; "C"; "C"; "D"; "D"]%string))
           <= occurrences t
                (readmitted_treatments "Flu"
                   (treated ["A"; "B"; "C"; "C"; "D"; "D"]%string)))%nat).
Proof.
  apply (interventions_most_frequent sort_desc_last
           (treated ["A"; "B"; "C"; "C"; "D"; "D"]%string) "Flu").
  - exact sort_desc_last_orders_by_count.
  - intros c' (e & Hin & _ & Hc).
    repeat (destruct Hin as [<- | Hin]; [injection Hc as <-; discriminate |]).
    destruct Hin.
  - exists (enrich (Example.flagged_row "Flu" 1 (Some "A"%string))).
    split; [left; reflexivity | split; reflexivity].
Defined.

(** ** Rows, ages and stays of a run *)

Lemma In_flat_map_repeat {A} (k : A -> nat) (l : list A) (a : A) :
  In a l -> (1 <= k a)%nat -> In a (flat_map (fun x => repeat x (k x)) l).
Proof.
  intros Hin Hk. apply in_flat_map. exists a. split; [exact Hin |].
  destruct (k a); [lia | left; reflexivity].
Qed.

Lemma fillna_ffill_keeps_present (df : list Row) (i : nat) (r : Row) :
  nth_error df i = Some r ->
  exists r', nth_error (fillna_ffill df) i = Some r'
             /\ forall c v, get c r = Some v -> get c r' = Some v.
Proof.
  intros Hr.
  assert (Hlt : (i < List.length (fillna_ffill df))%nat).
  { unfold fillna_ffill. rewrite ffill_rows_length.
    apply nth_error_Some. rewrite Hr. discriminate. }
  destruct (nth_error (fillna_ffill df) i) as [r' |] eqn:Er';
    [| apply nth_error_None in Er'; lia].
  exists r'. split; [reflexivity |]. intros c v Hv.
  pose proof (f_equal (fun l => nth_error l i) (column_of_fillna_ffill c df))
    as Hcol. cbn beta in Hcol.
  unfold ffill_col in Hcol. rewrite ffill_from_nth_error in Hcol.
  rewrite !nth_error_map, Hr, Er' in Hcol. cbn [option_map] in Hcol.
  rewrite Hv in Hcol. cbn [orelse] in Hcol. congruence.
Qed.

(** X3. When the script reaches the aggregates, their table has exactly
    the rows of the merge, and every patient of the input has a row in it:
    at the position of one of the patient's merge rows stands a row that
    carries every present cell of that merge row unchanged. *)
Theorem analysis_table_keeps_every_patient (patients : list Patient)
    (hospitals : list Hospital) (treatments : list Treatment)
    (df : list Enriched) :
  run patients hospitals treatments = inr df ->
  List.length df = List.length (merge patients hospitals treatments)
  /\ forall p, In p patients ->
       exists i r e,
         nth_error (merge patients hospitals treatments) i = Some r
         /\ patient_of r = p
         /\ nth_error df i = Some e
         /\ forall c v, get c r = Some v -> get c (row e) = Some v.
Proof.
  intros Hrun. destruct (run_inr _ _ _ _ Hrun) as (_ & _ & _ & ->).
  split; [apply analysis_table_length |].
  intros p Hp.
  assert (Hin : In p (map patient_of (merge patients hospitals treatments))).
  { rewrite merge_patient_rows.
    apply (In_flat_map_repeat
             (fun p => (Nat.max 1 (hospital_matches p hospitals)
                        * Nat.max 1 (treatment_matches p treatments))%nat));
      [exact Hp | nia]. }
  apply in_map_iff in Hin. destruct Hin as (r & Hpr & Hr).
  apply In_nth_error in Hr. destruct Hr as (i & Hi).
  destruct (fillna_ffill_keeps_present _ i r Hi) as (r' & Hr' & Hkeep).
  exists i, r, (enrich r'). split; [exact Hi |]. split; [exact Hpr |].
  split; [| exact Hkeep].
  unfold analysis_table. rewrite nth_error_map, Hr'. reflexivity.
Qed.

Lemma analysis_table_keeps_the_example_patient :
  List.length Example.df
  = List.length (merge [Example.P1] [Example.H1] [Example.Flu_Antiviral])
  /\ forall p, In p [Example.P1] ->
       exists i r e,
         nth_error (merge [Example.P1] [Example.H1] [Example.Flu_Antiviral]) i
         = Some r
         /\ patient_of r = p
         /\ nth_error Example.df i = Some e
         /\ forall c v, get c r = Some v -> get c (row e) = Some v.
Proof.
  apply (analysis_table_keeps_every_patient
           [Example.P1] [Example.H1] [Example.Flu_Antiviral] Example.df).
  reflexivity.
Defined.

(** X6. When the script reaches the aggregates, a row with a valid date
    of birth in a year up to 2024 has as its age the difference of the
    calendar years, 2024 minus the year of birth, or one less. *)
Theorem age_within_a_year_of_year_difference (patients : list Patient)
    (hospitals : list Hospital) (treatments : list Treatment)
    (df : list Enriched) (e : Enriched) (d : Timestamp) :
  run patients hospitals treatments = inr df ->
  In e df ->
  DOB (row e) = Some d ->
  Timestamp_ok d = true ->
  year d <= 2024 ->
  exists a, Age e = Some a /\ 2024 - year d - 1 <= a <= 2024 - year d.
Proof.
  intros Hrun Hin Hd Hok Hy.
  destruct (run_row _ _ _ _ e Hrun Hin) as (He & _ & _).
  rewrite He. apply age_of_row_within_a_year; assumption.
Qed.

Lemma age_within_a_year_example :
  exists a,
    Age (enrich (with_treatment
                   (with_hospital (born (mkDate 1960 1 10)) None) None))
    = Some a
    /\ 2024 - 1960 - 1 <= a <= 2024 - 1960.
Proof.
  apply (age_within_a_year_of_year_difference
           [born (mkDate 1960 1 10)] [] []
           (analysis_table [born (mkDate 1960 1 10)] [] [])
           _ (mkDate 1960 1 10));
    [reflexivity | left; reflexivity | reflexivity | reflexivity
     | cbn; lia].
Defined.

(** X8. When the script reaches the aggregates, of two rows with valid
    dates of birth the one born earlier has the greater or equal age, and
    never falls in an earlier age interval. *)
Theorem age_decreases_with_date_of_birth (patients : list Patient)
    (hospitals : list Hospital) (treatments : list Treatment)
    (df : list Enriched) (e1 e2 : Enriched) (d1 d2 : Timestamp) :
  run patients hospitals treatments = inr df ->
  In e1 df -> In e2 df ->
  DOB (row e1) = Some d1 -> DOB (row e2) = Some d2 ->
  Timestamp_ok d1 = true -> Timestamp_ok d2 = true ->
  Timestamp_ltb d1 d2 = true ->
  exists a1 a2,
    Age e1 = Some a1 /\ Age e2 = Some a2
    /\ a2 <= a1
    /\ (searchsorted_left bins a2 <= searchsorted_left bins a1)%nat.
Proof.
  intros Hrun Hin1 Hin2 H1 H2 O1 O2 Hlt.
  destruct (run_row _ _ _ _ e1 Hrun Hin1) as (He1 & _ & _).
  destruct (run_row _ _ _ _ e2 Hrun Hin2) as (He2 & _ & _).
  rewrite He1, He2.
  apply (age_of_rows_decreases _ _ d1 d2); assumption.
Qed.

Lemma age_decreases_example :
  exists a1 a2,
    Age (enrich (with_treatment
                   (with_hospital (born (mkDate 1950 3 1)) None) None))
    = Some a1
    /\ Age (enrich (with_treatment
                      (with_hospital (born (mkDate 2010 3 1)) None) None))
       = Some a2
    /\ a2 <= a1
    /\ (searchsorted_left bins a2 <= searchsorted_left bins a1)%nat.
Proof.
  apply (age_decreases_with_date_of_birth
           [born (mkDate 1950 3 1); born (mkDate 2010 3 1)] [] []
           (analysis_table [born (mkDate 1950 3 1); born (mkDate 2010 3 1)]
                           [] [])
           _ _ (mkDate 1950 3 1) (mkDate 2010 3 1));
    [reflexivity | left; reflexivity | right; left; reflexivity
     | reflexivity | reflexivity | reflexivity | reflexivity | reflexivity].
Defined.

(** X9. When the script reaches the aggregates, for a row with valid
    admission and discharge dates the sign of the length of stay tells the
    order of the two dates: zero exactly for a discharge on the day of
    admission, positive exactly for a later discharge, negative exactly
    for an earlier one. *)
Theorem length_of_stay_sign (patients : list Patient)
    (hospitals : list Hospital) (treatments : list Treatment)
    (df : list Enriched) (e : Enriched) (a d : Timestamp) :
  run patients hospitals treatments = inr df ->
  In e df ->
  Admission_Date (row e) = Some a -> Discharge_Date (row e) = Some d ->
  Timestamp_ok a = true -> Timestamp_ok d = true ->
  exists n, Length_of_Stay e = Some n
            /\ (n = 0 <-> a = d)
            /\ (0 < n <-> Timestamp_ltb a d = true)
            /\ (n < 0 <-> Timestamp_ltb d a = true).
Proof.
  intros Hrun Hin Ha Hd Oa Od.
  destruct (run_row _ _ _ _ e Hrun Hin) as (He & _ & _).
  rewrite He. apply stay_of_row_sign; assumption.
Qed.

Lemma length_of_stay_sign_example :
  exists n,
    Length_of_Stay
      (enrich (with_treatment
                 (with_hospital (stay (mkDate 2024 2 28) (mkDate 2024 3 1))
                                None) None))
    = Some n
    /\ (n = 0 <-> mkDate 2024 2 28 = mkDate 2024 3 1)
    /\ (0 < n <-> Timestamp_ltb (mkDate 2024 2 28) (mkDate 2024 3 1) = true)
    /\ (n < 0 <-> Timestamp_ltb (mkDate 2024 3 1) (mkDate 2024 2 28) = true).
Proof.
  apply (length_of_stay_sign
           [stay (mkDate 2024 2 28) (mkDate 2024 3 1)] [] []
           (analysis_table [stay (mkDate 2024 2 28) (mkDate 2024 3 1)] [] [])
           _ (mkDate 2024 2 28) (mkDate 2024 3 1));
    [reflexivity | left; reflexivity | reflexivity | reflexivity
     | reflexivity | reflexivity].
Defined.

(** ** Mean effectiveness *)

(** X14. When every effectiveness rate present in the table lies between
    two whole numbers [lo] and [hi] (between 0 and 1, or 0 and 100 for
    percentages), so does the mean effectiveness of every treatment
    type. *)
Theorem effectiveness_summary_within_rates (df : list Enriched) (lo hi : Z)
    (k : string) (m : Q) :
  (forall e v, In e df -> e_Effectiveness_Rate e = Some v ->
               inject_Z lo <= v <= inject_Z hi)%Q ->
  In (k, Some m) (effectiveness_summary df) ->
  (inject_Z lo <= m <= inject_Z hi)%Q.
Proof.
  intros Hb Hin.
  eapply (grouped_mean_bounds _ e_Effectiveness_Rate); eassumption.
Qed.

Lemma effectiveness_summary_within_rates_example :
  (inject_Z 0 <= 4 # 5 <= inject_Z 1)%Q.
Proof.
  apply (effectiveness_summary_within_rates Example.df 0 1
           "Antiviral"%string (4 # 5)%Q).
  - intros e v [<- | []] Hv. vm_compute in Hv. injection Hv as <-.
    split; discriminate.
  - left. reflexivity.
Defined.
